(** * Invoice server actions (app/lib/actions.ts)

    A shallow embedding of the four server actions of the dashboard:
    [authenticate], [createInvoice], [updateInvoice] and [deleteInvoice],
    together with the parts of their environment that decide what they do:
    JavaScript numbers (IEEE-754 binary64) and the coercion [Number(...)],
    [FormData.get], the zod schema [FormSchema] with [safeParse] and
    [flatten], the [invoices] table behind the [sql] tag, and the Next.js
    signals [revalidatePath] and [redirect]. *)

From Stdlib Require Import ZArith List Bool Ascii String Lia.
From Stdlib Require Import Floats.SpecFloat.
From stdpp Require Import base option list strings gmap.

Local Open Scope string_scope.
Local Open Scope Z_scope.

(** ** JavaScript numbers

    A JS number is an IEEE-754 binary64 value.  They are modelled by the
    Standard Library's [spec_float] at precision 53 and maximal exponent
    1024, whose operations round to nearest, ties to even, as JS does. *)
Module JsNumber.

Definition number : Type := spec_float.

Definition prec : Z := 53.
Definition emax : Z := 1024.

Definition NaN : number := S754_nan.
Definition pos_zero : number := S754_zero false.

(** The number denoted by an integer literal such as [0] or [100]. *)
Definition of_Z (z : Z) : number := binary_normalize prec emax z 0 false.

(** The number nearest to [m * 10^e], for a decimal literal with digits
    [m >= 0], sign [neg] and decimal exponent [e]. *)
Definition of_decimal (neg : bool) (m e : Z) : number :=
  if m =? 0 then S754_zero neg
  else if 0 <=? e
  then binary_normalize prec emax (cond_Zopp neg (m * 10 ^ e)) 0 neg
  else SFdiv prec emax (S754_finite neg (Z.to_pos m) 0)
                       (S754_finite false (Z.to_pos (10 ^ (- e))) 0).

(** [x * y], [x <= y] and [isNaN(x)]. *)
Definition mul (x y : number) : number := SFmul prec emax x y.
Definition leb (x y : number) : bool := SFleb x y.
Definition ltb (x y : number) : bool := SFltb x y.
Definition isNaN (x : number) : bool :=
  match x with S754_nan => true | _ => false end.

(** [Math.trunc(x)]: the integral part of [x], digits after the binary
    point removed.  Zeros, infinities and NaN are returned as they are. *)
Definition trunc (x : number) : number :=
  match x with
  | S754_finite s m e =>
      if 0 <=? e then x
      else match Z.shiftr (Zpos m) (- e) with
           | Zpos q => binary_normalize prec emax (cond_Zopp s (Zpos q)) 0 s
           | _ => S754_zero s
           end
  | _ => x
  end.

(** [Number.isInteger(x)]. *)
Definition isInteger (x : number) : bool :=
  match x with
  | S754_zero _ => true
  | S754_finite _ m e =>
      (0 <=? e) || (Z.land (Zpos m) (Z.ones (- e)) =? 0)
  | _ => false
  end.

(** *** [StringToNumber]

    Strings are held as their UTF-8 bytes.  The grammar is that of
    ECMAScript's [StringNumericLiteral]: optional white space, then
    either nothing (the value is [+0]) or one of [Infinity], a signed
    decimal literal with optional fraction and exponent, or an unsigned
    binary, octal or hexadecimal integer literal, then optional white
    space.  Everything else is [NaN]. *)

Definition byte (c : ascii) : Z := Z.of_N (N_of_ascii c).

(** White space and line terminators, as one to three bytes. *)
Definition ws1 (a : Z) : bool :=
  (a =? 9) || (a =? 10) || (a =? 11) || (a =? 12) || (a =? 13) || (a =? 32).
Definition ws2 (a b : Z) : bool := (a =? 194) && (b =? 160).
Definition ws3 (a b c : Z) : bool :=
  ((a =? 225) && (b =? 154) && (c =? 128))
  || ((a =? 226) && (b =? 128)
      && (((128 <=? c) && (c <=? 138)) || (c =? 168) || (c =? 169) || (c =? 175)))
  || ((a =? 226) && (b =? 129) && (c =? 159))
  || ((a =? 227) && (b =? 128) && (c =? 128))
  || ((a =? 239) && (b =? 187) && (c =? 191)).

Fixpoint skip_ws (l : list ascii) : list ascii :=
  match l with
  | a :: l1 =>
      if ws1 (byte a) then skip_ws l1
      else match l1 with
           | b :: l2 =>
               if ws2 (byte a) (byte b) then skip_ws l2
               else match l2 with
                    | c :: l3 =>
                        if ws3 (byte a) (byte b) (byte c) then skip_ws l3 else l
                    | [] => l
                    end
           | [] => l
           end
  | [] => []
  end.

Definition all_ws (l : list ascii) : bool :=
  match skip_ws l with [] => true | _ => false end.

(** The value of a digit in bases up to 16. *)
Definition digit_val (c : ascii) : option Z :=
  let a := byte c in
  if (48 <=? a) && (a <=? 57) then Some (a - 48)
  else if (97 <=? a) && (a <=? 102) then Some (a - 87)
  else if (65 <=? a) && (a <=? 70) then Some (a - 55)
  else None.

(** Reads the longest run of digits of [base], extending the value [acc]
    and the digit count [n]. *)
Fixpoint read_digits (base : Z) (l : list ascii) (acc n : Z)
  : Z * Z * list ascii :=
  match l with
  | c :: l' =>
      match digit_val c with
      | Some d =>
          if d <? base then read_digits base l' (acc * base + d) (n + 1)
          else (acc, n, l)
      | None => (acc, n, l)
      end
  | [] => (acc, n, l)
  end.

Fixpoint strip_prefix (p l : list ascii) : option (list ascii) :=
  match p, l with
  | [], _ => Some l
  | a :: p', b :: l' => if Ascii.eqb a b then strip_prefix p' l' else None
  | _ :: _, [] => None
  end.

(** [ExponentPart]: [e] or [E], an optional sign, at least one digit.
    Without a digit nothing is consumed. *)
Definition read_exponent (l : list ascii) : Z * list ascii :=
  match l with
  | c :: r =>
      if (byte c =? 101) || (byte c =? 69) then
        let '(neg, r') :=
          match r with
          | s :: r0 =>
              if byte s =? 45 then (true, r0)
              else if byte s =? 43 then (false, r0)
              else (false, r)
          | [] => (false, r)
          end in
        let '(v, n, rest) := read_digits 10 r' 0 0 in
        if n =? 0 then (0, l) else (cond_Zopp neg v, rest)
      else (0, l)
  | [] => (0, l)
  end.

(** [StrUnsignedDecimalLiteral], with the sign read before it. *)
Definition read_unsigned_decimal (neg : bool) (l : list ascii)
  : option (number * list ascii) :=
  match strip_prefix (list_ascii_of_string "Infinity") l with
  | Some rest => Some (S754_infinity neg, rest)
  | None =>
      let '(ip, ni, r1) := read_digits 10 l 0 0 in
      let '(m, nf, r2) :=
        match r1 with
        | c :: r => if byte c =? 46 then read_digits 10 r ip 0 else (ip, 0, r1)
        | [] => (ip, 0, r1)
        end in
      if ni + nf =? 0 then None
      else let '(ex, r3) := read_exponent r2 in
           Some (of_decimal neg m (ex - nf), r3)
  end.

(** [NonDecimalIntegerLiteral]: [0b], [0o] or [0x] in either case, then
    at least one digit of that base. *)
Definition radix_of (c : ascii) : option Z :=
  let a := byte c in
  if (a =? 120) || (a =? 88) then Some 16
  else if (a =? 111) || (a =? 79) then Some 8
  else if (a =? 98) || (a =? 66) then Some 2
  else None.

Definition read_literal (l : list ascii) : option (number * list ascii) :=
  match l with
  | z :: x :: r =>
      match (if byte z =? 48 then radix_of x else None) with
      | Some base =>
          let '(v, n, rest) := read_digits base r 0 0 in
          if n =? 0 then read_unsigned_decimal false l
          else Some (of_Z v, rest)
      | None =>
          if byte z =? 45 then read_unsigned_decimal true (x :: r)
          else if byte z =? 43 then read_unsigned_decimal false (x :: r)
          else read_unsigned_decimal false l
      end
  | _ => read_unsigned_decimal false l
  end.

Definition StringToNumber (s : string) : number :=
  match skip_ws (list_ascii_of_string s) with
  | [] => pos_zero
  | l =>
      match read_literal l with
      | Some (v, rest) => if all_ws rest then v else NaN
      | None => NaN
      end
  end.

End JsNumber.

Import JsNumber.

(** ** Values that reach the schema

    [formData.get(name)] returns the first entry of that name, a string or
    a [File], or [null] when there is none; it never returns [undefined].
    [JUndefined] is what zod sees for a key that is absent from its input
    object. *)
Inductive JsValue :=
| JUndefined
| JNull
| JString (s : string)
| JFile (name : string).

Inductive FormDataEntryValue :=
| EString (s : string)
| EFile (name : string).

Definition FormData : Type := list (string * FormDataEntryValue).

Definition entry_value (v : FormDataEntryValue) : JsValue :=
  match v with
  | EString s => JString s
  | EFile n => JFile n
  end.

Fixpoint FormData_get (name : string) (formData : FormData) : JsValue :=
  match formData with
  | [] => JNull
  | (k, v) :: rest =>
      if String.eqb k name then entry_value v else FormData_get name rest
  end.

(** [Number(value)], the coercion of [z.coerce.number()].  A [File] is an
    object whose primitive value is a string that is not numeric. *)
Definition Number (v : JsValue) : number :=
  match v with
  | JUndefined => NaN
  | JNull => pos_zero
  | JString s => StringToNumber s
  | JFile _ => NaN
  end.

(** ** The zod schema *)
Module Zod.

Inductive ZodIssueCode := invalid_type | invalid_enum_value | too_small.

Record ZodIssue := mkIssue {
  code : ZodIssueCode;
  path : list string;
  message : string }.

(** The result of parsing one value: [OK] is zod's status valid, [DIRTY]
    a value with issues, [INVALID] issues and no value. *)
Inductive ParseReturn (A : Type) :=
| OK (value : A)
| DIRTY (value : A) (issues : list ZodIssue)
| INVALID (issues : list ZodIssue).
Arguments OK {A}.
Arguments DIRTY {A}.
Arguments INVALID {A}.

Definition issues_of {A} (r : ParseReturn A) : list ZodIssue :=
  match r with
  | OK _ => []
  | DIRTY _ i => i
  | INVALID i => i
  end.

(** [getParsedType], as the name used in messages. *)
Definition getParsedType (v : JsValue) : string :=
  match v with
  | JUndefined => "undefined"
  | JNull => "null"
  | JString _ => "string"
  | JFile _ => "object"
  end.

(** zod's default error map for [invalid_type]. *)
Definition default_invalid_type (expected : string) (data : JsValue) : string :=
  match data with
  | JUndefined => "Required"
  | _ => "Expected " ++ expected ++ ", received " ++ getParsedType data
  end.

(** The error map built from [{ invalid_type_error }]: the custom message
    is used for an [invalid_type] issue on data that is not [undefined],
    the default message for everything else. *)
Definition custom_invalid_type (invalid_type_error : option string)
           (expected : string) (data : JsValue) : string :=
  match data, invalid_type_error with
  | JUndefined, _ => default_invalid_type expected data
  | _, Some m => m
  | _, None => default_invalid_type expected data
  end.

(** [util.joinValues]. *)
Fixpoint joinValues (values : list string) : string :=
  match values with
  | [] => ""
  | [v] => "'" ++ v ++ "'"
  | v :: rest => "'" ++ v ++ "' | " ++ joinValues rest
  end.

Definition default_invalid_enum_value (options : list string) (received : string)
  : string :=
  "Invalid enum value. Expected " ++ joinValues options
    ++ ", received '" ++ received ++ "'".

(** A number check [.gt(value, { message })] or [.gte(value, { message })]. *)
Record ZodNumberCheck := check_min {
  min_value : number;
  inclusive : bool;
  min_message : string }.

(** The schema types in use, indexed by the type of what they produce. *)
Inductive ZodType : Type -> Type :=
| ZodString (invalid_type_error : option string) : ZodType string
| ZodNumber (coerce : bool) (checks : list ZodNumberCheck) : ZodType number
| ZodEnum (values : list string) (invalid_type_error : option string)
  : ZodType string.

Definition check_issues (p : list string) (data : number)
           (checks : list ZodNumberCheck) : list ZodIssue :=
  flat_map
    (fun c =>
       let tooSmall :=
         if inclusive c then ltb data (min_value c) else leb data (min_value c) in
       if tooSmall then [mkIssue too_small p (min_message c)] else [])
    checks.

(** [schema._parse] at path [p]. *)
Definition parse {A} (t : ZodType A) (p : list string) (data : JsValue)
  : ParseReturn A :=
  match t in ZodType A return ParseReturn A with
  | ZodString ite =>
      match data with
      | JString s => OK s
      | _ => INVALID [mkIssue invalid_type p (custom_invalid_type ite "string" data)]
      end
  | ZodNumber coerce checks =>
      if coerce then
        let n := Number data in
        if isNaN n
        then INVALID [mkIssue invalid_type p "Expected number, received nan"]
        else match check_issues p n checks with
             | [] => OK n
             | iss => DIRTY n iss
             end
      else INVALID [mkIssue invalid_type p (default_invalid_type "number" data)]
  | ZodEnum values ite =>
      match data with
      | JString s =>
          if bool_decide (s ∈ values) then OK s
          else INVALID [mkIssue invalid_enum_value p
                          (default_invalid_enum_value values s)]
      | _ => INVALID [mkIssue invalid_type p
                        (custom_invalid_type ite (joinValues values) data)]
      end
  end.

(** [error.flatten().fieldErrors]: the messages of the issues, grouped by
    the first element of their path, in the order of the issues. *)
Definition flatten (issues : list ZodIssue) : gmap string (list string) :=
  fold_left
    (fun (fieldErrors : gmap string (list string)) sub =>
       match path sub with
       | k :: _ => <[k := (default [] (fieldErrors !! k) ++ [message sub])%list]> fieldErrors
       | [] => fieldErrors
       end)
    issues ∅.

End Zod.
Import Zod.

(** [FormSchema], and the schema left by [omit({ id: true, date: true })]. *)
Record ObjectShape := {
  shape_id : ZodType string;
  shape_customerId : ZodType string;
  shape_amount : ZodType number;
  shape_status : ZodType string;
  shape_date : ZodType string }.

Record OmittedShape := {
  om_customerId : ZodType string;
  om_amount : ZodType number;
  om_status : ZodType string }.

Definition FormSchema : ObjectShape := {|
  shape_id := ZodString None;
  shape_customerId := ZodString (Some "Please select a customer");
  shape_amount :=
    ZodNumber true [check_min (of_Z 0) false "Amount must be greater than 0"];
  shape_status :=
    ZodEnum ["pending"; "paid"] (Some "Please select a valid status");
  shape_date := ZodString None |}.

Definition omit_id_date (s : ObjectShape) : OmittedShape := {|
  om_customerId := shape_customerId s;
  om_amount := shape_amount s;
  om_status := shape_status s |}.

Definition CreateInvoice : OmittedShape := omit_id_date FormSchema.
Definition UpdateInvoice : OmittedShape := omit_id_date FormSchema.

(** The object literal handed to [safeParse] and the data it yields. *)
Record Input := {
  in_customerId : JsValue;
  in_amount : JsValue;
  in_status : JsValue }.

Record InvoiceFields := {
  customerId : string;
  amount : number;
  status : string }.

Inductive SafeParseReturn :=
| SafeParseSuccess (data : InvoiceFields)
| SafeParseError (error : list ZodIssue).

(** Every key of the shape is parsed, in the order of the shape, and the
    issues of all of them are collected; the parse succeeds when there is
    none. *)
Definition safeParse (schema : OmittedShape) (input : Input) : SafeParseReturn :=
  let c := parse (om_customerId schema) ["customerId"] (in_customerId input) in
  let a := parse (om_amount schema) ["amount"] (in_amount input) in
  let s := parse (om_status schema) ["status"] (in_status input) in
  match c, a, s with
  | OK c', OK a', OK s' =>
      SafeParseSuccess {| customerId := c'; amount := a'; status := s' |}
  | _, _, _ => SafeParseError (issues_of c ++ issues_of a ++ issues_of s)%list
  end.

(** ** The world of an action: the table, the client and the framework *)

Inductive JsError :=
| Error (message : string)
| AuthError (type : string)
| NextRedirect (url : string)
| PostgresError (message : string).

Module Db.

(** A row of [invoices].  [amount] holds the number the statement was
    given. *)
Record Invoice := {
  id : string;
  customer_id : string;
  amount : number;
  status : string;
  date : string }.

Inductive Statement :=
| Insert (customer_id : string) (amount : number) (status date : string)
| Update (customer_id : string) (amount : number) (status : string) (id : string)
| Delete (id : string).

(** What a statement that the store accepts does to the table; [new_id]
    is the identifier the store gives to an inserted row. *)
Definition apply (new_id : string) (st : Statement) (rows : list Invoice)
  : list Invoice :=
  match st with
  | Insert c a s d =>
      (rows ++ [{| id := new_id; customer_id := c; amount := a;
                   status := s; date := d |}])%list
  | Update c a s i =>
      map (fun r =>
             if String.eqb (id r) i
             then {| id := id r; customer_id := c; amount := a;
                     status := s; date := date r |}
             else r)
          rows
  | Delete i => filter (fun r => id r ≠ i) rows
  end.

End Db.

(** What the action cannot decide: the clock, whether the store rejects a
    statement, and the identifier of a new row. *)
Record Env := {
  clock : string;
  db_fault : Db.Statement -> option JsError;
  new_id : string }.

Record World := {
  invoices : list Db.Invoice;
  queries : list Db.Statement;
  revalidated : list string;
  console : list JsError }.

Inductive Result (A : Type) :=
| Ok (a : A)
| Throw (e : JsError).
Arguments Ok {A}.
Arguments Throw {A}.

(** An action reads the environment, changes the world, and returns or
    throws. *)
Definition M (A : Type) : Type := Env -> World -> Result A * World.

#[global] Instance M_ret : MRet M := fun A a _ w => (Ok a, w).

#[global] Instance M_bind : MBind M := fun A B f m env w =>
  match m env w with
  | (Ok a, w') => f a env w'
  | (Throw e, w') => (Throw e, w')
  end.

Definition throw {A} (e : JsError) : M A := fun _ w => (Throw e, w).

Definition try_catch {A} (body : M A) (handler : JsError -> M A) : M A :=
  fun env w =>
    match body env w with
    | (Ok a, w') => (Ok a, w')
    | (Throw e, w') => handler e env w'
    end.

(** The tagged template [sql]: the statement is sent; the store either
    rejects it, and the client throws, or applies it. *)
Definition sql (st : Db.Statement) : M unit := fun env w =>
  let sent := (queries w ++ [st])%list in
  match db_fault env st with
  | Some e =>
      (Throw e, {| invoices := invoices w; queries := sent;
                   revalidated := revalidated w; console := console w |})
  | None =>
      (Ok tt, {| invoices := Db.apply (new_id env) st (invoices w); queries := sent;
                 revalidated := revalidated w; console := console w |})
  end.

Definition revalidatePath (p : string) : M unit := fun _ w =>
  (Ok tt, {| invoices := invoices w; queries := queries w;
             revalidated := (revalidated w ++ [p])%list; console := console w |}).

(** [redirect] throws the framework's redirect signal and never returns. *)
Definition redirect {A} (url : string) : M A := throw (NextRedirect url).

Definition console_error (e : JsError) : M unit := fun _ w =>
  (Ok tt, {| invoices := invoices w; queries := queries w;
             revalidated := revalidated w; console := (console w ++ [e])%list |}).

(** [new Date().toISOString()]. *)
Definition toISOString_now : M string := fun env w => (Ok (clock env), w).

(** [s.split('T')[0]]: what comes before the first [T]. *)
Fixpoint split_T_head (s : string) : string :=
  match s with
  | EmptyString => EmptyString
  | String c rest =>
      if Ascii.eqb c "T"%char then EmptyString else String c (split_T_head rest)
  end.

(** ** The actions *)

(** [authenticate]: [signIn] belongs to the identity library; it is a
    parameter of the action. *)
Section Authenticate.

Variable signIn : string -> FormData -> M unit.

Definition authenticate (prevState : option string) (formData : FormData)
  : M (option string) :=
  try_catch
    (_ ← signIn "credentials" formData; mret None)
    (fun error =>
       match error with
       | AuthError type =>
           if String.eqb type "CredentialsSignin"
           then mret (Some "Invalid credentials.")
           else mret (Some "Someting went wrong")
       | _ => throw error
       end).

End Authenticate.

(** The type [State] of the value the invoice actions return. *)
Record State := {
  errors : option (gmap string (list string));
  message : option string }.

Definition createInvoice (prevState : State) (formData : FormData) : M State :=
  let validatedFields :=
    safeParse CreateInvoice
      {| in_customerId := FormData_get "customerId" formData;
         in_amount := FormData_get "amount" formData;
         in_status := FormData_get "status" formData |} in
  match validatedFields with
  | SafeParseError error =>
      mret {| errors := Some (flatten error);
              message := Some "Missing Fields. Failed to Create Invoice." |}
  | SafeParseSuccess data =>
      let amountInCents := mul (amount data) (of_Z 100) in
      iso ← toISOString_now;
      let date := split_T_head iso in
      caught ←
        try_catch
          (_ ← sql (Db.Insert (customerId data) amountInCents (status data) date);
           mret None)
          (fun error =>
             _ ← console_error error;
             mret (Some {| errors := None; message := Some "Database error" |}));
      match caught with
      | Some returned => mret returned
      | None =>
          _ ← revalidatePath "/dashboard/invoices";
          redirect "/dashboard/invoices"
      end
  end.

Definition updateInvoice (id : string) (prevState : State) (formData : FormData)
  : M State :=
  let validatedFields :=
    safeParse UpdateInvoice
      {| in_customerId := FormData_get "customerId" formData;
         in_amount := FormData_get "amount" formData;
         in_status := FormData_get "status" formData |} in
  match validatedFields with
  | SafeParseError error =>
      mret {| errors := Some (flatten error);
              message := Some "Missing Fields. Failed to Update Invoice." |}
  | SafeParseSuccess data =>
      let amountInCents := mul (amount data) (of_Z 100) in
      caught ←
        try_catch
          (_ ← sql (Db.Update (customerId data) amountInCents (status data) id);
           mret None)
          (fun error =>
             _ ← console_error error;
             mret (Some {| errors := None;
                           message := Some "Database error: Faild to Update" |}));
      match caught with
      | Some returned => mret returned
      | None =>
          _ ← revalidatePath "/dashboard/invoices";
          redirect "/dashboard/invoices"
      end
  end.

(** [deleteInvoice] throws first; the statement and the invalidation come
    after the [throw]. *)
Definition deleteInvoice (id : string) : M unit :=
  _ ← (throw (Error "Faild to Delete") : M unit);
  _ ← sql (Db.Delete id);
  revalidatePath "/dashboard/invoices".

(** ** Abbreviations and concrete inputs for the statements *)

(** The object literal both invoice actions build from the form. *)
Definition form_input (formData : FormData) : Input :=
  {| in_customerId := FormData_get "customerId" formData;
     in_amount := FormData_get "amount" formData;
     in_status := FormData_get "status" formData |}.

(** An environment whose store accepts every statement, and an empty
    world, for concrete runs. *)
Definition quiet_env : Env :=
  {| clock := "2026-11-02T10:00:00.000Z"; db_fault := fun _ => None;
     new_id := "inv_new" |}.

Definition failing_env : Env :=
  {| clock := "2026-11-02T10:00:00.000Z";
     db_fault := fun _ => Some (PostgresError "connection refused");
     new_id := "inv_new" |}.

Definition empty_world : World :=
  {| invoices := []; queries := []; revalidated := []; console := [] |}.

Definition no_state : State := {| errors := None; message := None |}.

Definition insert_stmt (env : Env) (data : InvoiceFields) : Db.Statement :=
  Db.Insert (customerId data) (mul (amount data) (of_Z 100)) (status data)
            (split_T_head (clock env)).

Definition update_stmt (id : string) (data : InvoiceFields) : Db.Statement :=
  Db.Update (customerId data) (mul (amount data) (of_Z 100)) (status data) id.

(** A table of two invoices, for concrete runs. *)
Definition two_invoices : World :=
  {| invoices :=
       [ {| Db.id := "inv_1"; Db.customer_id := "c1"; Db.amount := of_Z 500;
            Db.status := "pending"; Db.date := "2026-01-15" |};
         {| Db.id := "inv_2"; Db.customer_id := "c2"; Db.amount := of_Z 2000;
            Db.status := "paid"; Db.date := "2026-02-20" |} ];
     queries := []; revalidated := []; console := [] |}.

(** ** Validation, field by field *)

Definition customerId_result (input : Input) : ParseReturn string :=
  parse (om_customerId CreateInvoice) ["customerId"] (in_customerId input).
Definition amount_result (input : Input) : ParseReturn number :=
  parse (om_amount CreateInvoice) ["amount"] (in_amount input).
Definition status_result (input : Input) : ParseReturn string :=
  parse (om_status CreateInvoice) ["status"] (in_status input).

(** A field fails validation when its parse is not [OK]. *)
Definition failed {A} (r : ParseReturn A) : bool :=
  match r with OK _ => false | _ => true end.

Definition messages_of {A} (r : ParseReturn A) : list string :=
  map Zod.message (issues_of r).

(** The messages of the issues whose path starts with [k]. *)
Fixpoint messages_at (k : string) (issues : list ZodIssue) : list string :=
  match issues with
  | [] => []
  | i :: rest =>
      match path i with
      | p :: _ =>
          if String.eqb p k then Zod.message i :: messages_at k rest
          else messages_at k rest
      | [] => messages_at k rest
      end
  end.

(** What [fieldErrors] holds under key [k] for a field whose parse is [r]:
    the messages of its issues, at least one, when the field failed, and no
    entry otherwise. *)
Definition entry_for {A} (fe : gmap string (list string)) (k : string)
           (r : ParseReturn A) : Prop :=
  if failed r then messages_of r <> [] /\ fe !! k = Some (messages_of r)
  else fe !! k = None.

(** ** Notions for the further properties *)

(** A row whose status is one of the two values of the schema. *)
Definition valid_status (r : Db.Invoice) : Prop :=
  Db.status r = "pending" \/ Db.status r = "paid".

(** A string without the letter [T]. *)
Fixpoint T_free (s : string) : bool :=
  match s with
  | EmptyString => true
  | String c rest => negb (Ascii.eqb c "T"%char) && T_free rest
  end.

(** A number that is [+0], positive and finite, or [+Infinity]. *)
Definition nonnegative (x : number) : Prop :=
  match x with
  | S754_zero false | S754_infinity false | S754_finite false _ _ => True
  | _ => False
  end.

(** Strings of decimal digits, the way a whole amount is typed, and the
    integer they denote. *)
Definition is_digit (c : ascii) : bool := (48 <=? byte c) && (byte c <=? 57).

Fixpoint digits_value (l : list ascii) (acc : Z) : Z :=
  match l with
  | [] => acc
  | c :: r => digits_value r (acc * 10 + (byte c - 48))
  end.

Definition whole_number (s : string) : option Z :=
  match list_ascii_of_string s with
  | [] => None
  | l => if forallb is_digit l then Some (digits_value l 0) else None
  end.

(** * Lemmas on the model *)

(** Both actions validate against the same schema. *)
Remark UpdateInvoice_is_CreateInvoice : UpdateInvoice = CreateInvoice.
Proof. reflexivity. Qed.

Lemma FormData_get_defined name formData : FormData_get name formData <> JUndefined.
Proof.
  induction formData as [|[k v] rest IH]; simpl; [discriminate|].
  destruct (String.eqb k name); [destruct v; discriminate | exact IH].
Qed.

Lemma createInvoice_invalid prevState formData env w error :
  safeParse CreateInvoice (form_input formData) = SafeParseError error ->
  createInvoice prevState formData env w
  = (Ok {| errors := Some (flatten error);
           message := Some "Missing Fields. Failed to Create Invoice." |}, w).
Proof.
  intros H. unfold createInvoice. fold (form_input formData). rewrite H. reflexivity.
Qed.

Lemma updateInvoice_invalid id prevState formData env w error :
  safeParse UpdateInvoice (form_input formData) = SafeParseError error ->
  updateInvoice id prevState formData env w
  = (Ok {| errors := Some (flatten error);
           message := Some "Missing Fields. Failed to Update Invoice." |}, w).
Proof.
  intros H. unfold updateInvoice. fold (form_input formData). rewrite H. reflexivity.
Qed.

(** Runs an action past a successful validation [H] up to the answer [Hdb]
    of the store to the statement [stmt]. *)
Ltac run_validated H Hdb formData stmt :=
  fold (form_input formData); rewrite H;
  unfold mbind, M_bind, try_catch, toISOString_now, sql;
  fold stmt; rewrite Hdb; reflexivity.

Lemma createInvoice_stored prevState formData env w data :
  safeParse CreateInvoice (form_input formData) = SafeParseSuccess data ->
  db_fault env (insert_stmt env data) = None ->
  createInvoice prevState formData env w
  = (Throw (NextRedirect "/dashboard/invoices"),
     {| invoices := Db.apply (new_id env) (insert_stmt env data) (invoices w);
        queries := (queries w ++ [insert_stmt env data])%list;
        revalidated := (revalidated w ++ ["/dashboard/invoices"])%list;
        console := console w |}).
Proof.
  intros H Hdb. unfold createInvoice.
  run_validated H Hdb formData (insert_stmt env data).
Qed.

Lemma createInvoice_rejected prevState formData env w data e :
  safeParse CreateInvoice (form_input formData) = SafeParseSuccess data ->
  db_fault env (insert_stmt env data) = Some e ->
  createInvoice prevState formData env w
  = (Ok {| errors := None; message := Some "Database error" |},
     {| invoices := invoices w;
        queries := (queries w ++ [insert_stmt env data])%list;
        revalidated := revalidated w;
        console := (console w ++ [e])%list |}).
Proof.
  intros H Hdb. unfold createInvoice.
  run_validated H Hdb formData (insert_stmt env data).
Qed.

Lemma updateInvoice_stored id prevState formData env w data :
  safeParse UpdateInvoice (form_input formData) = SafeParseSuccess data ->
  db_fault env (update_stmt id data) = None ->
  updateInvoice id prevState formData env w
  = (Throw (NextRedirect "/dashboard/invoices"),
     {| invoices := Db.apply (new_id env) (update_stmt id data) (invoices w);
        queries := (queries w ++ [update_stmt id data])%list;
        revalidated := (revalidated w ++ ["/dashboard/invoices"])%list;
        console := console w |}).
Proof.
  intros H Hdb. unfold updateInvoice.
  run_validated H Hdb formData (update_stmt id data).
Qed.

Lemma updateInvoice_rejected id prevState formData env w data e :
  safeParse UpdateInvoice (form_input formData) = SafeParseSuccess data ->
  db_fault env (update_stmt id data) = Some e ->
  updateInvoice id prevState formData env w
  = (Ok {| errors := None; message := Some "Database error: Faild to Update" |},
     {| invoices := invoices w;
        queries := (queries w ++ [update_stmt id data])%list;
        revalidated := revalidated w;
        console := (console w ++ [e])%list |}).
Proof.
  intros H Hdb. unfold updateInvoice.
  run_validated H Hdb formData (update_stmt id data).
Qed.

Lemma messages_at_app k l1 l2 :
  messages_at k (l1 ++ l2) = (messages_at k l1 ++ messages_at k l2)%list.
Proof.
  induction l1 as [|i l1 IH]; simpl; [reflexivity|].
  destruct (path i) as [|p q]; [exact IH|].
  destruct (String.eqb p k); simpl; [f_equal|]; exact IH.
Qed.

Lemma messages_at_here k q l :
  Forall (fun i => path i = k :: q) l -> messages_at k l = map Zod.message l.
Proof.
  induction 1 as [|i l Hi _ IH]; simpl; [reflexivity|].
  rewrite Hi, String.eqb_refl, IH. reflexivity.
Qed.

Lemma messages_at_elsewhere k k' q l :
  k' <> k -> Forall (fun i => path i = k' :: q) l -> messages_at k l = [].
Proof.
  intros Hne. induction 1 as [|i l Hi _ IH]; simpl; [reflexivity|].
  rewrite Hi. destruct (String.eqb_spec k' k); [contradiction | exact IH].
Qed.

Lemma flatten_fold_lookup issues (acc : gmap string (list string)) k :
  fold_left
    (fun (fieldErrors : gmap string (list string)) sub =>
       match path sub with
       | p :: _ =>
           <[p := (default [] (fieldErrors !! p) ++ [Zod.message sub])%list]> fieldErrors
       | [] => fieldErrors
       end)
    issues acc !! k
  = match acc !! k, messages_at k issues with
    | None, [] => None
    | o, ms => Some (default [] o ++ ms)%list
    end.
Proof.
  revert acc. induction issues as [|i rest IH]; intros acc; simpl.
  - destruct (acc !! k); simpl; [rewrite app_nil_r|]; reflexivity.
  - rewrite IH. destruct (path i) as [|p q]; [reflexivity|].
    destruct (String.eqb_spec p k) as [->|Hne].
    + rewrite lookup_insert_eq. simpl. rewrite <- app_assoc. simpl.
      destruct (acc !! k); reflexivity.
    + rewrite lookup_insert_ne by exact Hne. reflexivity.
Qed.

Lemma flatten_lookup issues k :
  flatten issues !! k
  = match messages_at k issues with [] => None | ms => Some ms end.
Proof.
  unfold flatten. rewrite flatten_fold_lookup, lookup_empty. reflexivity.
Qed.

(** Every issue of a parse at path [p] carries the path [p]. *)
Lemma parse_issue_paths {A} (t : ZodType A) p v :
  Forall (fun i => path i = p) (issues_of (parse t p v)).
Proof.
  destruct t as [ite|coerce checks|values ite]; simpl.
  - destruct v; simpl; repeat constructor.
  - destruct coerce; [|repeat constructor].
    destruct (isNaN (Number v)); [repeat constructor|].
    assert (Hc : Forall (fun i => path i = p) (check_issues p (Number v) checks)).
    { unfold check_issues. induction checks as [|c cs IH]; simpl; [constructor|].
      apply Forall_app. split; [|exact IH].
      destruct (if inclusive c then _ else _); repeat constructor. }
    destruct (check_issues p (Number v) checks); [constructor | exact Hc].
  - destruct v; simpl; repeat constructor.
    destruct (bool_decide _); simpl; repeat constructor.
Qed.

(** A parse that is not [OK] has at least one issue. *)
Lemma parse_failed_issues {A} (t : ZodType A) p v :
  failed (parse t p v) = true -> issues_of (parse t p v) <> [].
Proof.
  destruct t as [ite|coerce checks|values ite]; simpl.
  - destruct v; simpl; discriminate.
  - destruct coerce; [|discriminate].
    destruct (isNaN (Number v)); [discriminate|].
    destruct (check_issues p (Number v) checks); simpl; discriminate.
  - destruct v; simpl; try discriminate.
    destruct (bool_decide _); simpl; discriminate.
Qed.

Lemma parse_ok_issues {A} (r : ParseReturn A) :
  failed r = false -> issues_of r = [].
Proof. destruct r; simpl; [reflexivity | discriminate | discriminate]. Qed.

(** [safeParse] succeeds when the three fields do, and otherwise fails with
    the issues of all three. *)
Lemma safeParse_failed input :
  failed (customerId_result input) || failed (amount_result input)
    || failed (status_result input) = true ->
  safeParse CreateInvoice input
  = SafeParseError (issues_of (customerId_result input)
                      ++ issues_of (amount_result input)
                      ++ issues_of (status_result input))%list.
Proof.
  unfold safeParse.
  fold (customerId_result input) (amount_result input) (status_result input).
  destruct (customerId_result input), (amount_result input), (status_result input);
    simpl; intros H; try reflexivity; discriminate.
Qed.

Lemma safeParse_passed input data :
  safeParse CreateInvoice input = SafeParseSuccess data ->
  customerId_result input = OK (customerId data)
  /\ amount_result input = OK (amount data)
  /\ status_result input = OK (status data).
Proof.
  unfold safeParse.
  fold (customerId_result input) (amount_result input) (status_result input).
  destruct (customerId_result input), (amount_result input), (status_result input);
    intros H; try discriminate.
  injection H as <-. simpl. auto.
Qed.

(** The entry of [fieldErrors] for each field: the messages of that field's
    issues, and no entry when it has none. *)
Lemma fieldErrors_lookup input :
  let fe := flatten (issues_of (customerId_result input)
                       ++ issues_of (amount_result input)
                       ++ issues_of (status_result input))%list in
  fe !! "customerId"
  = match messages_of (customerId_result input) with [] => None | ms => Some ms end
  /\ fe !! "amount"
     = match messages_of (amount_result input) with [] => None | ms => Some ms end
  /\ fe !! "status"
     = match messages_of (status_result input) with [] => None | ms => Some ms end.
Proof.
  intros fe. subst fe. rewrite !flatten_lookup, !messages_at_app.
  pose proof (parse_issue_paths (om_customerId CreateInvoice) ["customerId"]
                (in_customerId input)) as Hc.
  pose proof (parse_issue_paths (om_amount CreateInvoice) ["amount"]
                (in_amount input)) as Ha.
  pose proof (parse_issue_paths (om_status CreateInvoice) ["status"]
                (in_status input)) as Hs.
  fold (customerId_result input) in Hc. fold (amount_result input) in Ha.
  fold (status_result input) in Hs.
  rewrite (messages_at_here "customerId" [] _ Hc), (messages_at_here "amount" [] _ Ha),
    (messages_at_here "status" [] _ Hs).
  rewrite (messages_at_elsewhere "customerId" "amount" [] _ ltac:(discriminate) Ha),
    (messages_at_elsewhere "customerId" "status" [] _ ltac:(discriminate) Hs),
    (messages_at_elsewhere "amount" "customerId" [] _ ltac:(discriminate) Hc),
    (messages_at_elsewhere "amount" "status" [] _ ltac:(discriminate) Hs),
    (messages_at_elsewhere "status" "customerId" [] _ ltac:(discriminate) Hc),
    (messages_at_elsewhere "status" "amount" [] _ ltac:(discriminate) Ha).
  simpl. rewrite !app_nil_r. unfold messages_of. auto.
Qed.

(** The three fields of the schema, spelled out. *)
Lemma customerId_result_spec input :
  customerId_result input
  = match in_customerId input with
    | JString s => OK s
    | JUndefined => INVALID [mkIssue invalid_type ["customerId"] "Required"]
    | _ => INVALID [mkIssue invalid_type ["customerId"] "Please select a customer"]
    end.
Proof. unfold customerId_result. destruct (in_customerId input); reflexivity. Qed.

Lemma amount_result_spec input :
  amount_result input
  = let n := Number (in_amount input) in
    if isNaN n
    then INVALID [mkIssue invalid_type ["amount"] "Expected number, received nan"]
    else if leb n (of_Z 0)
         then DIRTY n [mkIssue too_small ["amount"] "Amount must be greater than 0"]
         else OK n.
Proof.
  unfold amount_result. simpl.
  destruct (isNaN (Number (in_amount input))); [reflexivity|].
  change (S754_zero false) with (of_Z 0).
  destruct (leb (Number (in_amount input)) (of_Z 0)); reflexivity.
Qed.

Lemma status_result_spec input :
  status_result input
  = match in_status input with
    | JString s =>
        if bool_decide (s ∈ ["pending"; "paid"]) then OK s
        else INVALID [mkIssue invalid_enum_value ["status"]
                        (default_invalid_enum_value ["pending"; "paid"] s)]
    | JUndefined => INVALID [mkIssue invalid_type ["status"] "Required"]
    | _ => INVALID [mkIssue invalid_type ["status"] "Please select a valid status"]
    end.
Proof. unfold status_result. destruct (in_status input); reflexivity. Qed.

Lemma entry_for_parse {A} (t : ZodType A) p v (fe : gmap string (list string)) k :
  fe !! k = match messages_of (parse t p v) with [] => None | ms => Some ms end ->
  entry_for fe k (parse t p v).
Proof.
  intros H. unfold entry_for. destruct (failed (parse t p v)) eqn:Hf.
  - apply parse_failed_issues in Hf. unfold messages_of in *.
    destruct (issues_of (parse t p v)) as [|i l]; [contradiction|].
    simpl in *. split; [discriminate | exact H].
  - apply parse_ok_issues in Hf. unfold messages_of in H. rewrite Hf in H. exact H.
Qed.

(** Both actions on a submission that fails validation. *)
Lemma invalid_submission id prevState formData env w :
  let input := form_input formData in
  failed (customerId_result input) || failed (amount_result input)
    || failed (status_result input) = true ->
  exists fe : gmap string (list string),
    createInvoice prevState formData env w
    = (Ok {| errors := Some fe;
             message := Some "Missing Fields. Failed to Create Invoice." |}, w)
    /\ updateInvoice id prevState formData env w
       = (Ok {| errors := Some fe;
                message := Some "Missing Fields. Failed to Update Invoice." |}, w)
    /\ entry_for fe "customerId" (customerId_result input)
    /\ entry_for fe "amount" (amount_result input)
    /\ entry_for fe "status" (status_result input).
Proof.
  intros input Hf. pose proof (safeParse_failed input Hf) as Hp.
  destruct (fieldErrors_lookup input) as (Hc & Ha & Hs).
  eexists. split; [|split; [|split; [|split]]].
  - apply createInvoice_invalid. exact Hp.
  - apply updateInvoice_invalid. exact Hp.
  - apply entry_for_parse. exact Hc.
  - apply entry_for_parse. exact Ha.
  - apply entry_for_parse. exact Hs.
Qed.

(** ** The authenticator *)

Lemma authenticate_run signIn prevState formData env w :
  authenticate signIn prevState formData env w
  = match signIn "credentials" formData env w with
    | (Ok _, w') => (Ok None, w')
    | (Throw (AuthError type), w') =>
        (Ok (Some (if String.eqb type "CredentialsSignin"
                   then "Invalid credentials." else "Someting went wrong")), w')
    | (Throw e, w') => (Throw e, w')
    end.
Proof.
  unfold authenticate, try_catch, mbind, M_bind.
  destruct (signIn "credentials" formData env w) as [[[]|e] w']; try reflexivity.
  destruct e; try reflexivity.
  destruct (String.eqb type "CredentialsSignin"); reflexivity.
Qed.

(** X13: when [signIn] throws an authentication error of the category
    [CredentialsSignin], [authenticate] returns the message
    ["Invalid credentials."] and leaves the world as [signIn] left it. *)
Lemma authenticate_invalid_credentials signIn prevState formData env w w' :
  signIn "credentials" formData env w = (Throw (AuthError "CredentialsSignin"), w') ->
  authenticate signIn prevState formData env w = (Ok (Some "Invalid credentials."), w').
Proof. intros H. rewrite authenticate_run, H. reflexivity. Qed.

(** X14: an error that is not an [AuthError], the redirect signal of a
    successful sign-in among them, is thrown again as it is. *)
Lemma authenticate_rethrows signIn prevState formData env w w' e :
  signIn "credentials" formData env w = (Throw e, w') ->
  (forall type, e <> AuthError type) ->
  authenticate signIn prevState formData env w = (Throw e, w').
Proof.
  intros H Hne. rewrite authenticate_run, H.
  destruct e; try reflexivity. exfalso. exact (Hne type eq_refl).
Qed.

(** * The properties *)

(** C1, as stated, fails: for the amount 1.15 the number given to the
    insert is 114.99999999999999, which is not the truncation of the product
    (114) and is no integer at all. *)
Lemma amount_stored_not_truncated :
  let fd := [("customerId", EString "c1"); ("amount", EString "1.15");
             ("status", EString "pending")] in
  exists data row,
    safeParse CreateInvoice (form_input fd) = SafeParseSuccess data
    /\ invoices (snd (createInvoice no_state fd quiet_env empty_world)) = [row]
    /\ Db.amount row <> trunc (mul (amount data) (of_Z 100))
    /\ isInteger (Db.amount row) = false.
Proof.
  eexists _, _. split; [vm_compute; reflexivity|].
  split; [vm_compute; reflexivity|].
  split; [|vm_compute; reflexivity].
  vm_compute. discriminate.
Qed.

(** C1 (amended): for every create or update submission that passes
    validation, the amount given to the insert or update statement, and
    held by the row once the store has applied it, is the product of the
    validated amount and 100 as JavaScript computes it, with no truncation;
    for the field value 12.34 it is exactly 1234. *)
Theorem amount_stored_is_product id prevState formData env w data :
  safeParse CreateInvoice (form_input formData) = SafeParseSuccess data ->
  let cents := mul (amount data) (of_Z 100) in
  amount data = Number (FormData_get "amount" formData)
  /\ queries (snd (createInvoice prevState formData env w))
     = (queries w ++ [Db.Insert (customerId data) cents (status data)
                                (split_T_head (clock env))])%list
  /\ (db_fault env (insert_stmt env data) = None ->
      exists row,
        invoices (snd (createInvoice prevState formData env w))
        = (invoices w ++ [row])%list
        /\ Db.amount row = cents)
  /\ queries (snd (updateInvoice id prevState formData env w))
     = (queries w ++ [Db.Update (customerId data) cents (status data) id])%list
  /\ (db_fault env (update_stmt id data) = None ->
      forall row,
        row ∈ invoices (snd (updateInvoice id prevState formData env w)) ->
        Db.id row = id -> Db.amount row = cents)
  /\ (FormData_get "amount" formData = JString "12.34" -> cents = of_Z 1234).
Proof.
  intros Hp cents.
  assert (Ha : amount data = Number (FormData_get "amount" formData)).
  { pose proof (safeParse_passed _ _ Hp) as (_ & Ha & _).
    rewrite amount_result_spec in Ha. simpl in Ha.
    destruct (isNaN _); [discriminate|].
    destruct (leb _ _); [discriminate|].
    injection Ha as <-. reflexivity. }
  split; [exact Ha|]. split; [|split; [|split; [|split]]].
  - destruct (db_fault env (insert_stmt env data)) as [e|] eqn:Hdb.
    + rewrite (createInvoice_rejected _ _ _ _ _ _ Hp Hdb). reflexivity.
    + rewrite (createInvoice_stored _ _ _ _ _ Hp Hdb). reflexivity.
  - intros Hdb. rewrite (createInvoice_stored _ _ _ _ _ Hp Hdb). simpl.
    eexists. split; reflexivity.
  - destruct (db_fault env (update_stmt id data)) as [e|] eqn:Hdb.
    + rewrite (updateInvoice_rejected _ _ _ _ _ _ _ Hp Hdb). reflexivity.
    + rewrite (updateInvoice_stored _ _ _ _ _ _ Hp Hdb). reflexivity.
  - intros Hdb row. rewrite (updateInvoice_stored _ _ _ _ _ _ Hp Hdb). simpl.
    intros Hin Hid. apply list_elem_of_fmap in Hin as (r & -> & _).
    destruct (String.eqb_spec (Db.id r) id) as [_|Hne]; [reflexivity|].
    contradiction.
  - intros H. unfold cents. rewrite Ha, H. vm_compute. reflexivity.
Qed.

Lemma amount_stored_is_product_witness :
  let fd := [("customerId", EString "c1"); ("amount", EString "12.34");
             ("status", EString "pending")] in
  exists data,
    safeParse CreateInvoice (form_input fd) = SafeParseSuccess data
    /\ exists row,
        invoices (snd (createInvoice no_state fd quiet_env empty_world)) = [row]
        /\ Db.amount row = of_Z 1234.
Proof.
  intros fd.
  exists {| customerId := "c1"; amount := StringToNumber "12.34"; status := "pending" |}.
  assert (Hp : safeParse CreateInvoice (form_input fd)
               = SafeParseSuccess
                   {| customerId := "c1"; amount := StringToNumber "12.34";
                      status := "pending" |}) by (vm_compute; reflexivity).
  split; [exact Hp|].
  destruct (amount_stored_is_product "inv_1" no_state fd quiet_env empty_world _ Hp)
    as (_ & _ & Hrow & _ & _ & Hcents).
  destruct (Hrow eq_refl) as (row & Hrows & Hamount).
  exists row. split; [exact Hrows|].
  rewrite Hamount. apply Hcents. reflexivity.
Defined.

(** C2, as stated, fails: a status that is a string outside the two values
    gets zod's default message for an invalid enum value, not the message
    given as [invalid_type_error]. *)
Lemma status_string_gets_default_message :
  let fd := [("customerId", EString "c1"); ("amount", EString "12.34");
             ("status", EString "foo")] in
  exists fe ms,
    createInvoice no_state fd quiet_env empty_world
    = (Ok {| errors := Some fe;
             message := Some "Missing Fields. Failed to Create Invoice." |},
       empty_world)
    /\ fe !! "status" = Some ms
    /\ ms = ["Invalid enum value. Expected 'pending' | 'paid', received 'foo'"]
    /\ "Please select a valid status" ∉ ms.
Proof.
  intros fd.
  destruct (invalid_submission "inv_1" no_state fd quiet_env empty_world)
    as (fe & Hc & _ & _ & _ & Hs); [vm_compute; reflexivity|].
  exists fe, ["Invalid enum value. Expected 'pending' | 'paid', received 'foo'"].
  split; [exact Hc|]. split; [exact (proj2 Hs)|]. split; [reflexivity|].
  intros Hin. apply list_elem_of_singleton in Hin. discriminate.
Qed.

(** C2 (amended): when the status field of a create or update submission
    is absent or is not a string, the action returns a field-error map
    whose status entry is the message "Please select a valid status"; when
    it is a string other than pending and paid, the entry is zod's default
    message "Invalid enum value. Expected 'pending' | 'paid', received
    '<status>'". *)
Theorem status_error_message id prevState formData env w :
  let v := FormData_get "status" formData in
  (forall s, v = JString s -> s ∉ ["pending"; "paid"]) ->
  exists fe : gmap string (list string),
    createInvoice prevState formData env w
    = (Ok {| errors := Some fe;
             message := Some "Missing Fields. Failed to Create Invoice." |}, w)
    /\ updateInvoice id prevState formData env w
       = (Ok {| errors := Some fe;
                message := Some "Missing Fields. Failed to Update Invoice." |}, w)
    /\ fe !! "status"
       = Some [match v with
               | JString s => default_invalid_enum_value ["pending"; "paid"] s
               | _ => "Please select a valid status"
               end].
Proof.
  intros v Hv.
  assert (Hs : status_result (form_input formData)
               = INVALID [mkIssue
                            match v with
                            | JString _ => invalid_enum_value
                            | _ => invalid_type
                            end ["status"]
                            match v with
                            | JString s => default_invalid_enum_value ["pending"; "paid"] s
                            | _ => "Please select a valid status"
                            end]).
  { rewrite status_result_spec. simpl. fold v.
    pose proof (FormData_get_defined "status" formData) as Hdef. fold v in Hdef.
    destruct v as [| |s|n]; [contradiction|reflexivity| |reflexivity].
    rewrite bool_decide_eq_false_2; [reflexivity|]. apply Hv. reflexivity. }
  destruct (invalid_submission id prevState formData env w)
    as (fe & Hc & Hu & _ & _ & He).
  { rewrite Hs. simpl. apply orb_true_r. }
  exists fe. split; [exact Hc|]. split; [exact Hu|].
  rewrite Hs in He. exact (proj2 He).
Qed.

Lemma status_error_message_witness :
  let fd := [("customerId", EString "c1"); ("amount", EString "12.34")] in
  exists fe : gmap string (list string),
    createInvoice no_state fd quiet_env empty_world
    = (Ok {| errors := Some fe;
             message := Some "Missing Fields. Failed to Create Invoice." |},
       empty_world)
    /\ fe !! "status" = Some ["Please select a valid status"].
Proof.
  intros fd.
  destruct (status_error_message "inv_1" no_state fd quiet_env empty_world)
    as (fe & Hc & _ & Hs).
  - intros s Hs. vm_compute in Hs. discriminate.
  - exists fe. split; [exact Hc | exact Hs].
Defined.

(** C3: when the amount field of a create or update submission is, after
    the coercion [Number(...)], less than or equal to 0 (an absent field or
    an empty string is coerced to 0), the action returns a field-error map
    whose amount entry is the message "Amount must be greater than 0". *)
Theorem nonpositive_amount_error id prevState formData env w :
  leb (Number (FormData_get "amount" formData)) (of_Z 0) = true ->
  exists fe : gmap string (list string),
    createInvoice prevState formData env w
    = (Ok {| errors := Some fe;
             message := Some "Missing Fields. Failed to Create Invoice." |}, w)
    /\ updateInvoice id prevState formData env w
       = (Ok {| errors := Some fe;
                message := Some "Missing Fields. Failed to Update Invoice." |}, w)
    /\ fe !! "amount" = Some ["Amount must be greater than 0"]
    /\ "Amount must be greater than 0" ∈ default [] (fe !! "amount").
Proof.
  intros Hle.
  assert (Ha : amount_result (form_input formData)
               = DIRTY (Number (FormData_get "amount" formData))
                   [mkIssue too_small ["amount"] "Amount must be greater than 0"]).
  { rewrite amount_result_spec. cbv zeta. simpl in_amount. rewrite Hle.
    destruct (Number (FormData_get "amount" formData)); try reflexivity.
    discriminate. }
  destruct (invalid_submission id prevState formData env w)
    as (fe & Hc & Hu & _ & He & _).
  { rewrite Ha. simpl. rewrite orb_true_r. reflexivity. }
  exists fe. split; [exact Hc|]. split; [exact Hu|].
  rewrite Ha in He. destruct He as [_ He]. split; [exact He|].
  rewrite He. simpl. apply list_elem_of_singleton. reflexivity.
Qed.

Lemma nonpositive_amount_error_witness :
  let fd := [("customerId", EString "c1"); ("status", EString "paid")] in
  leb (Number (FormData_get "amount" fd)) (of_Z 0) = true
  /\ exists fe : gmap string (list string),
      updateInvoice "inv_1" no_state fd quiet_env empty_world
      = (Ok {| errors := Some fe;
               message := Some "Missing Fields. Failed to Update Invoice." |},
         empty_world)
      /\ fe !! "amount" = Some ["Amount must be greater than 0"].
Proof.
  intros fd.
  assert (Hle : leb (Number (FormData_get "amount" fd)) (of_Z 0) = true)
    by (vm_compute; reflexivity).
  split; [exact Hle|].
  destruct (nonpositive_amount_error "inv_1" no_state fd quiet_env empty_world Hle)
    as (fe & _ & Hu & Ha & _).
  exists fe. split; [exact Hu | exact Ha].
Defined.

(** An amount that is not numeric and not empty is coerced to NaN, which is
    not less than or equal to 0: its entry is zod's message for a value that
    is not a number. *)
Example non_numeric_amount_message :
  let fd := [("customerId", EString "c1"); ("amount", EString "abc");
             ("status", EString "paid")] in
  leb (Number (FormData_get "amount" fd)) (of_Z 0) = false
  /\ exists fe : gmap string (list string),
      createInvoice no_state fd quiet_env empty_world
      = (Ok {| errors := Some fe;
               message := Some "Missing Fields. Failed to Create Invoice." |},
         empty_world)
      /\ fe !! "amount" = Some ["Expected number, received nan"].
Proof.
  intros fd. split; [reflexivity|].
  destruct (invalid_submission "inv_1" no_state fd quiet_env empty_world)
    as (fe & Hc & _ & _ & Ha & _); [vm_compute; reflexivity|].
  exists fe. split; [exact Hc | exact (proj2 Ha)].
Qed.

(** C4: for every identifier, [deleteInvoice] throws the error
    "Faild to Delete" and leaves the world as it was: no statement is sent,
    no path is invalidated and every row of the table stays as it is. *)
Theorem deleteInvoice_throws id env w :
  deleteInvoice id env w = (Throw (Error "Faild to Delete"), w)
  /\ queries (snd (deleteInvoice id env w)) = queries w
  /\ revalidated (snd (deleteInvoice id env w)) = revalidated w
  /\ invoices (snd (deleteInvoice id env w)) = invoices w.
Proof. repeat split; reflexivity. Qed.

(** C5: when at least one of the three fields of a create or update
    submission fails validation, the action returns the fixed message of
    that action and an errors map that has, for every failing field, an
    entry with the messages of that field, and no entry for a field that
    passed; an absent customerId gives the entry "Please select a
    customer"; the world is returned as it was, so no statement is sent and
    the table is unchanged. *)
Theorem validation_errors_aggregate id prevState formData env w :
  let input := form_input formData in
  failed (customerId_result input) || failed (amount_result input)
    || failed (status_result input) = true ->
  exists fe : gmap string (list string),
    createInvoice prevState formData env w
    = (Ok {| errors := Some fe;
             message := Some "Missing Fields. Failed to Create Invoice." |}, w)
    /\ updateInvoice id prevState formData env w
       = (Ok {| errors := Some fe;
                message := Some "Missing Fields. Failed to Update Invoice." |}, w)
    /\ entry_for fe "customerId" (customerId_result input)
    /\ entry_for fe "amount" (amount_result input)
    /\ entry_for fe "status" (status_result input)
    /\ (FormData_get "customerId" formData = JNull ->
        fe !! "customerId" = Some ["Please select a customer"])
    /\ queries (snd (createInvoice prevState formData env w)) = queries w
    /\ invoices (snd (createInvoice prevState formData env w)) = invoices w
    /\ queries (snd (updateInvoice id prevState formData env w)) = queries w
    /\ invoices (snd (updateInvoice id prevState formData env w)) = invoices w.
Proof.
  intros input Hf.
  destruct (invalid_submission id prevState formData env w Hf)
    as (fe & Hc & Hu & Ec & Ea & Es).
  exists fe. rewrite Hc, Hu. repeat (split; [assumption || reflexivity|]).
  split; [|repeat split; reflexivity].
  intros Hnull. fold input in Ec. rewrite customerId_result_spec in Ec.
  unfold input in Ec. simpl in_customerId in Ec. rewrite Hnull in Ec.
  exact (proj2 Ec).
Qed.

Lemma validation_errors_aggregate_witness :
  let fd := [("amount", EString "-5"); ("status", EString "draft")] in
  exists fe : gmap string (list string),
    createInvoice no_state fd quiet_env empty_world
    = (Ok {| errors := Some fe;
             message := Some "Missing Fields. Failed to Create Invoice." |},
       empty_world)
    /\ fe !! "customerId" = Some ["Please select a customer"]
    /\ fe !! "amount" = Some ["Amount must be greater than 0"]
    /\ fe !! "status"
       = Some ["Invalid enum value. Expected 'pending' | 'paid', received 'draft'"].
Proof.
  intros fd.
  destruct (validation_errors_aggregate "inv_1" no_state fd quiet_env empty_world)
    as (fe & Hc & _ & Ec & Ea & Es & _); [vm_compute; reflexivity|].
  exists fe. split; [exact Hc|].
  split; [exact (proj2 Ec)|]. split; [exact (proj2 Ea) | exact (proj2 Es)].
Defined.

(** C6: when a create submission passes validation and the store rejects
    the insert, [createInvoice] returns exactly the value with the message
    "Database error" and no errors map; it does not redirect, and it
    invalidates no path. *)
Theorem createInvoice_database_error prevState formData env w data e :
  safeParse CreateInvoice (form_input formData) = SafeParseSuccess data ->
  db_fault env (insert_stmt env data) = Some e ->
  fst (createInvoice prevState formData env w)
  = Ok {| errors := None; message := Some "Database error" |}
  /\ (forall url, fst (createInvoice prevState formData env w) <> Throw (NextRedirect url))
  /\ revalidated (snd (createInvoice prevState formData env w)) = revalidated w
  /\ invoices (snd (createInvoice prevState formData env w)) = invoices w
  /\ console (snd (createInvoice prevState formData env w)) = (console w ++ [e])%list.
Proof.
  intros Hp Hdb. rewrite (createInvoice_rejected _ _ _ _ _ _ Hp Hdb). simpl.
  repeat split; try reflexivity. intros url. discriminate.
Qed.

Lemma createInvoice_database_error_witness :
  let fd := [("customerId", EString "c1"); ("amount", EString "12.34");
             ("status", EString "pending")] in
  fst (createInvoice no_state fd failing_env empty_world)
  = Ok {| errors := None; message := Some "Database error" |}
  /\ revalidated (snd (createInvoice no_state fd failing_env empty_world)) = [].
Proof.
  intros fd.
  destruct (createInvoice_database_error no_state fd failing_env empty_world
              {| customerId := "c1"; amount := StringToNumber "12.34";
                 status := "pending" |}
              (PostgresError "connection refused"))
    as (Hr & _ & Hv & _); [vm_compute; reflexivity | reflexivity |].
  split; [exact Hr | exact Hv].
Defined.

(** C7 fails on the code: for an authentication error of a category other
    than [CredentialsSignin], here [CallbackRouteError], [authenticate]
    returns the misspelt "Someting went wrong", not "Something went
    wrong". *)
Theorem authenticate_other_category_message prevState formData env w :
  let signIn : string -> FormData -> M unit :=
    fun _ _ => throw (AuthError "CallbackRouteError") in
  authenticate signIn prevState formData env w = (Ok (Some "Someting went wrong"), w)
  /\ fst (authenticate signIn prevState formData env w)
     <> Ok (Some "Something went wrong").
Proof. split; [reflexivity | discriminate]. Qed.

(** The update statement, row by row. *)
Lemma apply_update_lookup nid c a s i rows k r :
  rows !! k = Some r ->
  Db.apply nid (Db.Update c a s i) rows !! k
  = Some (if String.eqb (Db.id r) i
          then {| Db.id := Db.id r; Db.customer_id := c; Db.amount := a;
                  Db.status := s; Db.date := Db.date r |}
          else r).
Proof.
  intros H. simpl.
  change (map ?f rows) with (f <$> rows).
  rewrite list_lookup_fmap, H. reflexivity.
Qed.

Lemma apply_update_no_match nid c a s i rows :
  (forall r, r ∈ rows -> Db.id r <> i) ->
  Db.apply nid (Db.Update c a s i) rows = rows.
Proof.
  intros H. simpl. induction rows as [|r rows IH]; simpl; [reflexivity|].
  destruct (String.eqb_spec (Db.id r) i) as [Heq|_].
  - exfalso. apply (H r); [left | exact Heq].
  - f_equal. apply IH. intros r' Hin. apply H. right. exact Hin.
Qed.

(** C8: when an update submission passes validation and the store accepts
    the statement, the table keeps its length; every row whose id differs
    from the given identifier is unchanged; a row whose id is the given
    identifier keeps its id and its date and takes the validated customer
    id, the amount in cents and the status; with identifiers that are
    unique in the table, at most one row matches. *)
Theorem updateInvoice_frame id prevState formData env w data :
  safeParse UpdateInvoice (form_input formData) = SafeParseSuccess data ->
  db_fault env (update_stmt id data) = None ->
  let w' := snd (updateInvoice id prevState formData env w) in
  length (invoices w') = length (invoices w)
  /\ (forall k r, invoices w !! k = Some r -> Db.id r <> id ->
      invoices w' !! k = Some r)
  /\ (forall k r, invoices w !! k = Some r -> Db.id r = id ->
      invoices w' !! k
      = Some {| Db.id := Db.id r;
                Db.customer_id := customerId data;
                Db.amount := mul (amount data) (of_Z 100);
                Db.status := status data;
                Db.date := Db.date r |})
  /\ (NoDup (map Db.id (invoices w)) ->
      forall j k r1 r2,
        invoices w !! j = Some r1 -> invoices w !! k = Some r2 ->
        Db.id r1 = id -> Db.id r2 = id -> j = k).
Proof.
  intros Hp Hdb w'. subst w'. rewrite (updateInvoice_stored _ _ _ _ _ _ Hp Hdb).
  cbn [snd invoices]. unfold update_stmt.
  split; [|split; [|split]].
  - simpl. apply length_map.
  - intros k r Hk Hne. rewrite (apply_update_lookup _ _ _ _ _ _ _ _ Hk).
    destruct (String.eqb_spec (Db.id r) id); [contradiction | reflexivity].
  - intros k r Hk Heq. rewrite (apply_update_lookup _ _ _ _ _ _ _ _ Hk).
    destruct (String.eqb_spec (Db.id r) id); [reflexivity | contradiction].
  - intros Hnd j k r1 r2 Hj Hk H1 H2.
    apply (NoDup_lookup _ j k id Hnd).
    + change (map Db.id (invoices w)) with (Db.id <$> invoices w).
      rewrite list_lookup_fmap, Hj. simpl. f_equal. exact H1.
    + change (map Db.id (invoices w)) with (Db.id <$> invoices w).
      rewrite list_lookup_fmap, Hk. simpl. f_equal. exact H2.
Qed.

Lemma updateInvoice_frame_witness :
  let fd := [("customerId", EString "c3"); ("amount", EString "12.34");
             ("status", EString "paid")] in
  let w' := snd (updateInvoice "inv_1" no_state fd quiet_env two_invoices) in
  invoices w' !! 0%nat
  = Some {| Db.id := "inv_1"; Db.customer_id := "c3"; Db.amount := of_Z 1234;
            Db.status := "paid"; Db.date := "2026-01-15" |}
  /\ invoices w' !! 1%nat = invoices two_invoices !! 1%nat.
Proof.
  intros fd w'. subst w'.
  destruct (updateInvoice_frame "inv_1" no_state fd quiet_env two_invoices
              {| customerId := "c3"; amount := StringToNumber "12.34";
                 status := "paid" |})
    as (_ & Hother & Hrow & _); [vm_compute; reflexivity | reflexivity |].
  split.
  - rewrite (Hrow 0%nat _ eq_refl eq_refl). vm_compute. reflexivity.
  - apply (Hother 1%nat _ eq_refl). discriminate.
Defined.

(** C9: when an update submission passes validation, the store accepts
    the statement and no row has the given identifier, whatever string
    it is, [updateInvoice] takes the success path: the table is unchanged,
    the invoice listing path is invalidated and the action redirects to it,
    returning no error. *)
Theorem updateInvoice_unknown_id id prevState formData env w data :
  safeParse UpdateInvoice (form_input formData) = SafeParseSuccess data ->
  db_fault env (update_stmt id data) = None ->
  (forall r, r ∈ invoices w -> Db.id r <> id) ->
  updateInvoice id prevState formData env w
  = (Throw (NextRedirect "/dashboard/invoices"),
     {| invoices := invoices w;
        queries := (queries w ++ [update_stmt id data])%list;
        revalidated := (revalidated w ++ ["/dashboard/invoices"])%list;
        console := console w |}).
Proof.
  intros Hp Hdb Hno. rewrite (updateInvoice_stored _ _ _ _ _ _ Hp Hdb).
  unfold update_stmt at 1. rewrite apply_update_no_match by exact Hno. reflexivity.
Qed.

Lemma updateInvoice_unknown_id_witness :
  let fd := [("customerId", EString "c3"); ("amount", EString "12.34");
             ("status", EString "paid")] in
  fst (updateInvoice "" no_state fd quiet_env two_invoices)
  = Throw (NextRedirect "/dashboard/invoices")
  /\ invoices (snd (updateInvoice "" no_state fd quiet_env two_invoices))
     = invoices two_invoices
  /\ revalidated (snd (updateInvoice "" no_state fd quiet_env two_invoices))
     = ["/dashboard/invoices"].
Proof.
  intros fd.
  rewrite (updateInvoice_unknown_id "" no_state fd quiet_env two_invoices
             {| customerId := "c3"; amount := StringToNumber "12.34";
                status := "paid" |}).
  - repeat split; reflexivity.
  - vm_compute. reflexivity.
  - reflexivity.
  - intros r Hin. simpl in Hin.
    apply elem_of_cons in Hin as [->|Hin]; [discriminate|].
    apply list_elem_of_singleton in Hin as ->. discriminate.
Defined.

(** C10: two create submissions whose forms give the same customerId,
    amount and status have the same outcome, in the same environment and
    world: the same result and the same world afterwards, whatever other
    fields, [id] and [date] among them, the forms carry and whatever the
    previous state was. *)
Theorem createInvoice_ignores_other_fields prevState1 prevState2 fd1 fd2 env w :
  FormData_get "customerId" fd1 = FormData_get "customerId" fd2 ->
  FormData_get "amount" fd1 = FormData_get "amount" fd2 ->
  FormData_get "status" fd1 = FormData_get "status" fd2 ->
  safeParse CreateInvoice (form_input fd1) = safeParse CreateInvoice (form_input fd2)
  /\ createInvoice prevState1 fd1 env w = createInvoice prevState2 fd2 env w.
Proof.
  intros Hc Ha Hs. unfold createInvoice, form_input. rewrite Hc, Ha, Hs.
  split; reflexivity.
Qed.

Lemma createInvoice_ignores_other_fields_witness :
  let fd1 := [("customerId", EString "c1"); ("amount", EString "12.34");
              ("status", EString "pending")] in
  let fd2 := [("id", EString "inv_1"); ("customerId", EString "c1");
              ("date", EString "1999-12-31"); ("amount", EString "12.34");
              ("status", EString "pending"); ("status", EString "paid");
              ("role", EString "admin")] in
  createInvoice no_state fd1 quiet_env two_invoices
  = createInvoice {| errors := None; message := Some "previous" |} fd2
      quiet_env two_invoices.
Proof.
  intros fd1 fd2.
  apply (createInvoice_ignores_other_fields no_state _ fd1 fd2 quiet_env two_invoices);
    reflexivity.
Defined.


(** * Further properties of the actions *)

(** ** Validation *)

Lemma positive_iff (n : number) :
  isNaN n = false /\ leb n (of_Z 0) = false <-> ltb (of_Z 0) n = true.
Proof.
  destruct n as [[]|[]| |[] m e]; vm_compute; intuition discriminate.
Qed.

Lemma safeParse_error_issues input error :
  safeParse CreateInvoice input = SafeParseError error ->
  error = (issues_of (customerId_result input) ++ issues_of (amount_result input)
             ++ issues_of (status_result input))%list
  /\ failed (customerId_result input) || failed (amount_result input)
       || failed (status_result input) = true.
Proof.
  unfold safeParse.
  fold (customerId_result input) (amount_result input) (status_result input).
  destruct (customerId_result input), (amount_result input), (status_result input);
    simpl; intros H; try discriminate; injection H as <-; split; reflexivity.
Qed.

(** X1: the schema accepts a submission exactly when the customerId is a
    string (the empty string included), the amount coerced by [Number] is
    greater than 0 (so not NaN; [Infinity] is accepted) and the status is
    the string pending or paid; the data are then that string, that number
    and that status. *)
Theorem safeParse_succeeds_iff input data :
  safeParse CreateInvoice input = SafeParseSuccess data
  <-> in_customerId input = JString (customerId data)
      /\ amount data = Number (in_amount input)
      /\ ltb (of_Z 0) (amount data) = true
      /\ in_status input = JString (status data)
      /\ (status data = "pending" \/ status data = "paid").
Proof.
  split.
  - intros Hp. apply safeParse_passed in Hp as (Hc & Ha & Hs).
    rewrite customerId_result_spec in Hc. rewrite amount_result_spec in Ha.
    rewrite status_result_spec in Hs. cbv zeta in Ha.
    destruct (in_customerId input); try discriminate. injection Hc as ->.
    destruct (isNaN (Number (in_amount input))) eqn:Hn; [discriminate|].
    destruct (leb (Number (in_amount input)) (of_Z 0)) eqn:Hl; [discriminate|].
    injection Ha as <-.
    destruct (in_status input) as [| |s|]; try discriminate.
    destruct (bool_decide (s ∈ ["pending"; "paid"])) eqn:Hb; [|discriminate].
    injection Hs as <-. apply bool_decide_eq_true_1 in Hb.
    split; [reflexivity|]. split; [reflexivity|].
    split; [apply positive_iff; auto|]. split; [reflexivity|].
    apply elem_of_cons in Hb as [->|Hb]; [left; reflexivity|].
    apply list_elem_of_singleton in Hb as ->. right. reflexivity.
  - intros (Hc & Ha & Hpos & Hs & Hv). destruct data as [c a s]. simpl in *.
    apply positive_iff in Hpos as [Hn Hl].
    unfold safeParse.
    fold (customerId_result input) (amount_result input) (status_result input).
    rewrite customerId_result_spec, amount_result_spec, status_result_spec.
    cbv zeta. rewrite Hc, Hs, <- Ha, Hn, Hl.
    rewrite bool_decide_eq_true_2; [reflexivity|].
    destruct Hv as [->| ->]; [left | right; left].
Qed.

(** X2: the errors map that [createInvoice] and [updateInvoice] return on
    a validation failure has no key other than customerId, amount and
    status, and each of its entries holds exactly one message. *)
Theorem errors_map_shape id prevState formData env w st fe k ms :
  fst (createInvoice prevState formData env w) = Ok st
  \/ fst (updateInvoice id prevState formData env w) = Ok st ->
  errors st = Some fe ->
  fe !! k = Some ms ->
  (k = "customerId" \/ k = "amount" \/ k = "status") /\ length ms = 1%nat.
Proof.
  intros Hrun He Hk.
  assert (Hfe : exists error,
             safeParse CreateInvoice (form_input formData) = SafeParseError error
             /\ fe = flatten error).
  { destruct (safeParse CreateInvoice (form_input formData)) as [data|error] eqn:Hp.
    - exfalso. destruct Hrun as [Hrun|Hrun].
      + destruct (db_fault env (insert_stmt env data)) as [e|] eqn:Hdb.
        * rewrite (createInvoice_rejected _ _ _ _ _ _ Hp Hdb) in Hrun.
          injection Hrun as <-. discriminate.
        * rewrite (createInvoice_stored _ _ _ _ _ Hp Hdb) in Hrun. discriminate.
      + destruct (db_fault env (update_stmt id data)) as [e|] eqn:Hdb.
        * rewrite (updateInvoice_rejected _ _ _ _ _ _ _ Hp Hdb) in Hrun.
          injection Hrun as <-. discriminate.
        * rewrite (updateInvoice_stored _ _ _ _ _ _ Hp Hdb) in Hrun. discriminate.
    - exists error. split; [reflexivity|]. destruct Hrun as [Hrun|Hrun].
      + rewrite (createInvoice_invalid _ _ _ _ _ Hp) in Hrun.
        injection Hrun as <-. simpl in He. congruence.
      + rewrite (updateInvoice_invalid _ _ _ _ _ _ Hp) in Hrun.
        injection Hrun as <-. simpl in He. congruence. }
  destruct Hfe as (error & Hp & ->).
  apply safeParse_error_issues in Hp as [-> _].
  set (input := form_input formData) in *.
  destruct (fieldErrors_lookup input) as (Hc & Ha & Hs).
  assert (Hone : forall {A} (r : ParseReturn A) (o : option (list string)),
             (length (issues_of r) <= 1)%nat ->
             o = match messages_of r with [] => None | m => Some m end ->
             o = Some ms -> length ms = 1%nat).
  { intros A r o Hlen -> Hsome. unfold messages_of in Hsome.
    destruct (issues_of r) as [|i [|j l]]; simpl in *;
      [discriminate | injection Hsome as <-; reflexivity | lia]. }
  destruct (String.eqb_spec k "customerId") as [->|Nc].
  { split; [auto|]. apply (Hone _ (customerId_result input) _) with (2 := Hc) (3 := Hk).
    rewrite customerId_result_spec. destruct (in_customerId input); simpl; lia. }
  destruct (String.eqb_spec k "amount") as [->|Na].
  { split; [auto|]. apply (Hone _ (amount_result input) _) with (2 := Ha) (3 := Hk).
    rewrite amount_result_spec. cbv zeta.
    destruct (isNaN _); [simpl; lia|]. destruct (leb _ _); simpl; lia. }
  destruct (String.eqb_spec k "status") as [->|Ns].
  { split; [auto|]. apply (Hone _ (status_result input) _) with (2 := Hs) (3 := Hk).
    rewrite status_result_spec. destruct (in_status input); simpl; try lia.
    destruct (bool_decide _); simpl; lia. }
  exfalso. rewrite flatten_lookup, !messages_at_app in Hk.
  unfold customerId_result, amount_result, status_result in Hk.
  rewrite (messages_at_elsewhere k "customerId" [] _ ltac:(congruence)
             (parse_issue_paths _ _ _)),
    (messages_at_elsewhere k "amount" [] _ ltac:(congruence)
             (parse_issue_paths _ _ _)),
    (messages_at_elsewhere k "status" [] _ ltac:(congruence)
             (parse_issue_paths _ _ _)) in Hk.
  discriminate.
Qed.

Lemma errors_map_shape_witness :
  let fd := [("amount", EString "0"); ("status", EString "paid")] in
  exists st fe ms,
    fst (createInvoice no_state fd quiet_env empty_world) = Ok st
    /\ errors st = Some fe
    /\ fe !! "amount" = Some ms
    /\ length ms = 1%nat.
Proof.
  intros fd.
  destruct (invalid_submission "inv_1" no_state fd quiet_env empty_world)
    as (fe & Hc & _ & _ & Ha & _); [vm_compute; reflexivity|].
  exists {| errors := Some fe;
            message := Some "Missing Fields. Failed to Create Invoice." |},
    fe, ["Amount must be greater than 0"].
  assert (Hrun : fst (createInvoice no_state fd quiet_env empty_world)
                 = Ok {| errors := Some fe;
                         message := Some "Missing Fields. Failed to Create Invoice." |})
    by (rewrite Hc; reflexivity).
  split; [exact Hrun|]. split; [reflexivity|]. split; [exact (proj2 Ha)|].
  exact (proj2 (errors_map_shape "inv_1" no_state fd quiet_env empty_world _ fe
                  "amount" _ (or_introl Hrun) eq_refl (proj2 Ha))).
Defined.

Lemma safeParse_succeeds_iff_witness :
  safeParse CreateInvoice
    {| in_customerId := JString ""; in_amount := JString "Infinity";
       in_status := JString "paid" |}
  = SafeParseSuccess
      {| customerId := ""; amount := S754_infinity false; status := "paid" |}.
Proof.
  apply (proj2 (safeParse_succeeds_iff _ _)). simpl.
  repeat split; try reflexivity. right. reflexivity.
Defined.

(** ** The three ways an invoice action ends *)

Lemma createInvoice_cases prevState formData env w :
  (exists error,
      safeParse CreateInvoice (form_input formData) = SafeParseError error
      /\ createInvoice prevState formData env w
         = (Ok {| errors := Some (flatten error);
                  message := Some "Missing Fields. Failed to Create Invoice." |}, w))
  \/ (exists data e,
         safeParse CreateInvoice (form_input formData) = SafeParseSuccess data
         /\ db_fault env (insert_stmt env data) = Some e
         /\ createInvoice prevState formData env w
            = (Ok {| errors := None; message := Some "Database error" |},
               {| invoices := invoices w;
                  queries := (queries w ++ [insert_stmt env data])%list;
                  revalidated := revalidated w;
                  console := (console w ++ [e])%list |}))
  \/ (exists data,
         safeParse CreateInvoice (form_input formData) = SafeParseSuccess data
         /\ db_fault env (insert_stmt env data) = None
         /\ createInvoice prevState formData env w
            = (Throw (NextRedirect "/dashboard/invoices"),
               {| invoices := Db.apply (new_id env) (insert_stmt env data) (invoices w);
                  queries := (queries w ++ [insert_stmt env data])%list;
                  revalidated := (revalidated w ++ ["/dashboard/invoices"])%list;
                  console := console w |})).
Proof.
  destruct (safeParse CreateInvoice (form_input formData)) as [data|error] eqn:Hp.
  - destruct (db_fault env (insert_stmt env data)) as [e|] eqn:Hdb.
    + right. left. exists data, e. eauto using createInvoice_rejected.
    + right. right. exists data. eauto using createInvoice_stored.
  - left. exists error. eauto using createInvoice_invalid.
Qed.

Lemma updateInvoice_cases id prevState formData env w :
  (exists error,
      safeParse UpdateInvoice (form_input formData) = SafeParseError error
      /\ updateInvoice id prevState formData env w
         = (Ok {| errors := Some (flatten error);
                  message := Some "Missing Fields. Failed to Update Invoice." |}, w))
  \/ (exists data e,
         safeParse UpdateInvoice (form_input formData) = SafeParseSuccess data
         /\ db_fault env (update_stmt id data) = Some e
         /\ updateInvoice id prevState formData env w
            = (Ok {| errors := None;
                     message := Some "Database error: Faild to Update" |},
               {| invoices := invoices w;
                  queries := (queries w ++ [update_stmt id data])%list;
                  revalidated := revalidated w;
                  console := (console w ++ [e])%list |}))
  \/ (exists data,
         safeParse UpdateInvoice (form_input formData) = SafeParseSuccess data
         /\ db_fault env (update_stmt id data) = None
         /\ updateInvoice id prevState formData env w
            = (Throw (NextRedirect "/dashboard/invoices"),
               {| invoices := Db.apply (new_id env) (update_stmt id data) (invoices w);
                  queries := (queries w ++ [update_stmt id data])%list;
                  revalidated := (revalidated w ++ ["/dashboard/invoices"])%list;
                  console := console w |})).
Proof.
  destruct (safeParse UpdateInvoice (form_input formData)) as [data|error] eqn:Hp.
  - destruct (db_fault env (update_stmt id data)) as [e|] eqn:Hdb.
    + right. left. exists data, e. eauto using updateInvoice_rejected.
    + right. right. exists data. eauto using updateInvoice_stored.
  - left. exists error. eauto using updateInvoice_invalid.
Qed.

(** X3: whatever the form, the store and the world, [createInvoice] ends
    in one of two ways.  If it throws, what it throws is the redirect to
    /dashboard/invoices, and then one statement was sent and accepted, one
    row was added after the rows that were there, the path was invalidated
    once and nothing was logged.  If it returns, the table and the
    invalidated paths are as before, and either nothing at all happened
    (validation failure) or one statement was sent and rejected, its error
    was logged and the value returned is the fixed message "Database
    error", which carries nothing of that error. *)
Theorem createInvoice_outcome prevState formData env w :
  let r := createInvoice prevState formData env w in
  (forall e, fst r = Throw e ->
     e = NextRedirect "/dashboard/invoices"
     /\ revalidated (snd r) = (revalidated w ++ ["/dashboard/invoices"])%list
     /\ console (snd r) = console w
     /\ (exists row, invoices (snd r) = (invoices w ++ [row])%list
                     /\ Db.id row = new_id env)
     /\ exists stmt, queries (snd r) = (queries w ++ [stmt])%list
                     /\ db_fault env stmt = None)
  /\ (forall st, fst r = Ok st ->
        revalidated (snd r) = revalidated w
        /\ invoices (snd r) = invoices w
        /\ ((message st = Some "Missing Fields. Failed to Create Invoice."
             /\ errors st <> None /\ snd r = w)
            \/ (st = {| errors := None; message := Some "Database error" |}
                /\ exists stmt e,
                    queries (snd r) = (queries w ++ [stmt])%list
                    /\ db_fault env stmt = Some e
                    /\ console (snd r) = (console w ++ [e])%list))).
Proof.
  intros r. subst r.
  destruct (createInvoice_cases prevState formData env w)
    as [(error & _ & ->)|[(data & e & _ & Hdb & ->)|(data & _ & Hdb & ->)]];
    cbn [fst snd invoices queries revalidated console]; split.
  - intros e [=].
  - intros st [= <-]. simpl. repeat split. left. repeat split. discriminate.
  - intros e' [=].
  - intros st [= <-]. repeat split. right. split; [reflexivity|]. eauto.
  - intros e [= <-]. repeat split; eauto.
  - intros st [=].
Qed.

(** X4: whatever the identifier, the form, the store and the world,
    [updateInvoice] ends in one of two ways.  If it throws, what it throws
    is the redirect to /dashboard/invoices, and then one statement was sent
    and accepted, the path was invalidated once, nothing was logged, and
    the table has the same rows in the same order with the same ids and
    dates.  If it returns, the table and the invalidated paths are as
    before, and either nothing at all happened (validation failure) or one
    statement was sent and rejected, its error was logged and the value
    returned is the fixed message "Database error: Faild to Update". *)
Theorem updateInvoice_outcome id prevState formData env w :
  let r := updateInvoice id prevState formData env w in
  (forall e, fst r = Throw e ->
     e = NextRedirect "/dashboard/invoices"
     /\ revalidated (snd r) = (revalidated w ++ ["/dashboard/invoices"])%list
     /\ console (snd r) = console w
     /\ map Db.id (invoices (snd r)) = map Db.id (invoices w)
     /\ map Db.date (invoices (snd r)) = map Db.date (invoices w)
     /\ exists stmt, queries (snd r) = (queries w ++ [stmt])%list
                     /\ db_fault env stmt = None)
  /\ (forall st, fst r = Ok st ->
        revalidated (snd r) = revalidated w
        /\ invoices (snd r) = invoices w
        /\ ((message st = Some "Missing Fields. Failed to Update Invoice."
             /\ errors st <> None /\ snd r = w)
            \/ (st = {| errors := None;
                        message := Some "Database error: Faild to Update" |}
                /\ exists stmt e,
                    queries (snd r) = (queries w ++ [stmt])%list
                    /\ db_fault env stmt = Some e
                    /\ console (snd r) = (console w ++ [e])%list))).
Proof.
  intros r. subst r.
  destruct (updateInvoice_cases id prevState formData env w)
    as [(error & _ & ->)|[(data & e & _ & Hdb & ->)|(data & _ & Hdb & ->)]];
    cbn [fst snd invoices queries revalidated console]; split.
  - intros e [=].
  - intros st [= <-]. simpl. repeat split. left. repeat split. discriminate.
  - intros e' [=].
  - intros st [= <-]. repeat split. right. split; [reflexivity|]. eauto.
  - intros e [= <-]. split; [reflexivity|]. split; [reflexivity|].
    split; [reflexivity|]. unfold update_stmt at 1 2. simpl Db.apply.
    rewrite !map_map. simpl.
    split; [|split; [|eauto]]; apply map_ext; intros r;
      destruct (String.eqb (Db.id r) id); reflexivity.
  - intros st [=].
Qed.

(** ** What the table keeps *)

Lemma validated_status input data :
  safeParse CreateInvoice input = SafeParseSuccess data ->
  status data = "pending" \/ status data = "paid".
Proof.
  intros Hp. apply safeParse_passed in Hp as (_ & _ & Hs).
  rewrite status_result_spec in Hs.
  destruct (in_status input) as [| |s|]; try discriminate.
  destruct (bool_decide (s ∈ ["pending"; "paid"])) eqn:Hb; [|discriminate].
  injection Hs as <-. apply bool_decide_eq_true_1 in Hb.
  apply elem_of_cons in Hb as [->|Hb]; [left; reflexivity|].
  apply list_elem_of_singleton in Hb as ->. right. reflexivity.
Qed.

Lemma validated_amount input data :
  safeParse CreateInvoice input = SafeParseSuccess data ->
  amount data = Number (in_amount input) /\ ltb (of_Z 0) (amount data) = true.
Proof.
  intros Hp. apply safeParse_passed in Hp as (_ & Ha & _).
  rewrite amount_result_spec in Ha. cbv zeta in Ha.
  destruct (isNaN (Number (in_amount input))) eqn:Hn; [discriminate|].
  destruct (leb (Number (in_amount input)) (of_Z 0)) eqn:Hl; [discriminate|].
  injection Ha as <-. split; [reflexivity|]. apply positive_iff. auto.
Qed.

(** Rounding a mantissa that is not negative gives a number that is not
    negative. *)
Lemma iter_pos_invariant {A} (P : A -> Prop) (f : A -> A) :
  (forall x, P x -> P (f x)) -> forall p x, P x -> P (SpecFloat.iter_pos f p x).
Proof.
  intros Hf. induction p as [p IH|p IH|]; intros x Hx; simpl; auto.
Qed.

Lemma shr_1_nonneg mrs : 0 <= shr_m mrs -> 0 <= shr_m (shr_1 mrs).
Proof.
  destruct mrs as [m r s]. simpl.
  destruct m as [|[p|p|]|[p|p|]]; simpl; lia.
Qed.

Lemma shr_fexp_nonneg m e l :
  0 <= m -> 0 <= shr_m (fst (shr_fexp prec emax m e l)).
Proof.
  intros Hm. unfold shr_fexp, shr.
  assert (H0 : 0 <= shr_m (shr_record_of_loc m l))
    by (destruct l as [|[]]; simpl; exact Hm).
  destruct (fexp prec emax (Zdigits2 m + e) - e) as [|p|p]; simpl; try exact H0.
  apply (iter_pos_invariant (fun mrs => 0 <= shr_m mrs)); [apply shr_1_nonneg|exact H0].
Qed.

Lemma binary_round_aux_nonnegative m e l :
  0 <= m -> nonnegative (binary_round_aux prec emax false m e l).
Proof.
  intros Hm. unfold binary_round_aux.
  pose proof (shr_fexp_nonneg m e l Hm) as H1.
  destruct (shr_fexp prec emax m e l) as [mrs' e']. simpl in H1.
  assert (H2 : 0 <= round_nearest_even (shr_m mrs') (loc_of_shr_record mrs')).
  { unfold round_nearest_even. destruct (loc_of_shr_record mrs') as [|[]];
      try destruct (Z.even _); lia. }
  pose proof (shr_fexp_nonneg _ e' loc_Exact H2) as H3.
  destruct (shr_fexp prec emax _ e' loc_Exact) as [mrs'' e'']. simpl in H3.
  destruct (shr_m mrs'') as [|p|p]; simpl; [exact I| |lia].
  destruct (e'' <=? emax - prec); exact I.
Qed.

Lemma cents_nonnegative (x : number) :
  ltb (of_Z 0) x = true -> nonnegative (mul x (of_Z 100)).
Proof.
  destruct x as [[]|[]| |[] m e]; try (vm_compute; discriminate); intros _.
  - exact I.
  - change (of_Z 100) with (S754_finite false 7036874417766400 (-46)).
    unfold mul, SFmul. simpl xorb. apply binary_round_aux_nonnegative. lia.
Qed.

(** X5: both invoice actions keep the table within the two statuses of
    the schema: when every row has the status pending or paid before
    [createInvoice] or [updateInvoice] runs, every row has it afterwards,
    however the action ends. *)
Theorem status_invariant id prevState formData env w :
  Forall valid_status (invoices w) ->
  Forall valid_status (invoices (snd (createInvoice prevState formData env w)))
  /\ Forall valid_status (invoices (snd (updateInvoice id prevState formData env w))).
Proof.
  intros Hw. split.
  - destruct (createInvoice_cases prevState formData env w)
      as [(error & _ & ->)|[(data & e & _ & _ & ->)|(data & Hp & _ & ->)]];
      cbn [snd invoices]; try exact Hw.
    unfold insert_stmt. simpl. apply Forall_app. split; [exact Hw|].
    constructor; [|constructor]. exact (validated_status _ _ Hp).
  - destruct (updateInvoice_cases id prevState formData env w)
      as [(error & _ & ->)|[(data & e & _ & _ & ->)|(data & Hp & _ & ->)]];
      cbn [snd invoices]; try exact Hw.
    unfold update_stmt. simpl. induction Hw as [|r rows Hr _ IH]; simpl; constructor.
    + destruct (String.eqb (Db.id r) id); [|exact Hr].
      exact (validated_status _ _ Hp).
    + exact IH.
Qed.

Lemma status_invariant_witness :
  Forall valid_status
    (invoices (snd (createInvoice no_state
                      [("customerId", EString "c1"); ("amount", EString "12.34");
                       ("status", EString "paid")] quiet_env two_invoices))).
Proof.
  refine (proj1 (status_invariant "inv_1" no_state _ quiet_env two_invoices _)).
  constructor; [left; reflexivity|].
  constructor; [right; reflexivity | constructor].
Defined.

(** X6: the amount that a validated submission hands to the store is
    never NaN and never negative: it is +0, a positive finite number or
    +Infinity.  Both actions therefore keep a table whose amounts are all
    of that kind. *)
Theorem amount_invariant id prevState formData env w :
  Forall (fun r => nonnegative (Db.amount r)) (invoices w) ->
  Forall (fun r => nonnegative (Db.amount r))
         (invoices (snd (createInvoice prevState formData env w)))
  /\ Forall (fun r => nonnegative (Db.amount r))
            (invoices (snd (updateInvoice id prevState formData env w))).
Proof.
  intros Hw. split.
  - destruct (createInvoice_cases prevState formData env w)
      as [(error & _ & ->)|[(data & e & _ & _ & ->)|(data & Hp & _ & ->)]];
      cbn [snd invoices]; try exact Hw.
    unfold insert_stmt. simpl. apply Forall_app. split; [exact Hw|].
    constructor; [|constructor]. simpl.
    apply cents_nonnegative. exact (proj2 (validated_amount _ _ Hp)).
  - destruct (updateInvoice_cases id prevState formData env w)
      as [(error & _ & ->)|[(data & e & _ & _ & ->)|(data & Hp & _ & ->)]];
      cbn [snd invoices]; try exact Hw.
    unfold update_stmt. simpl. induction Hw as [|r rows Hr _ IH]; simpl; constructor.
    + destruct (String.eqb (Db.id r) id); [|exact Hr]. simpl.
      apply cents_nonnegative. exact (proj2 (validated_amount _ _ Hp)).
    + exact IH.
Qed.

Lemma amount_invariant_witness :
  Forall (fun r => nonnegative (Db.amount r))
    (invoices (snd (updateInvoice "inv_2" no_state
                      [("customerId", EString "c1"); ("amount", EString "1e308");
                       ("status", EString "paid")] quiet_env two_invoices))).
Proof.
  refine (proj2 (amount_invariant "inv_2" no_state _ quiet_env two_invoices _)).
  repeat constructor.
Defined.

(** ** Updates, one after another *)

Lemma apply_update_twice nid nid' c1 a1 s1 c2 a2 s2 i rows :
  Db.apply nid' (Db.Update c2 a2 s2 i) (Db.apply nid (Db.Update c1 a1 s1 i) rows)
  = Db.apply nid' (Db.Update c2 a2 s2 i) rows.
Proof.
  simpl. rewrite map_map. apply map_ext. intros r.
  destruct (String.eqb (Db.id r) i) eqn:Hi; simpl; rewrite Hi; reflexivity.
Qed.

(** X7: of two updates of the same invoice, the last one wins: when the
    second submission passes validation and the store accepts its
    statement, the table after both updates is the table after the second
    one alone, however the first one ended. *)
Theorem updateInvoice_last_write_wins id prevState1 prevState2 fd1 fd2 env w data2 :
  safeParse UpdateInvoice (form_input fd2) = SafeParseSuccess data2 ->
  db_fault env (update_stmt id data2) = None ->
  invoices (snd (updateInvoice id prevState2 fd2 env
                   (snd (updateInvoice id prevState1 fd1 env w))))
  = invoices (snd (updateInvoice id prevState2 fd2 env w)).
Proof.
  intros Hp Hdb. rewrite !(updateInvoice_stored _ _ _ _ _ _ Hp Hdb).
  cbn [snd invoices].
  destruct (updateInvoice_cases id prevState1 fd1 env w)
    as [(error & _ & ->)|[(data & e & _ & _ & ->)|(data & _ & _ & ->)]];
    cbn [snd invoices]; try reflexivity.
  unfold update_stmt. apply apply_update_twice.
Qed.

Lemma updateInvoice_last_write_wins_witness :
  let fd1 := [("customerId", EString "c9"); ("amount", EString "7");
              ("status", EString "pending")] in
  let fd2 := [("customerId", EString "c3"); ("amount", EString "12.34");
              ("status", EString "paid")] in
  invoices (snd (updateInvoice "inv_1" no_state fd2 quiet_env
                   (snd (updateInvoice "inv_1" no_state fd1 quiet_env two_invoices))))
  = invoices (snd (updateInvoice "inv_1" no_state fd2 quiet_env two_invoices)).
Proof.
  intros fd1 fd2.
  apply (updateInvoice_last_write_wins "inv_1" no_state no_state fd1 fd2 quiet_env
           two_invoices
           {| customerId := "c3"; amount := StringToNumber "12.34"; status := "paid" |});
    [vm_compute; reflexivity | reflexivity].
Defined.

(** X8: [updateInvoice] is idempotent on the table: submitting the same
    form for the same identifier a second time, in the same environment,
    leaves the table as the first submission left it, however the
    submissions end. *)
Theorem updateInvoice_idempotent id prevState1 prevState2 formData env w :
  let w1 := snd (updateInvoice id prevState1 formData env w) in
  invoices (snd (updateInvoice id prevState2 formData env w1)) = invoices w1.
Proof.
  intros w1. subst w1.
  destruct (updateInvoice_cases id prevState1 formData env w)
    as [(error & Hp & ->)|[(data & e & Hp & Hdb & ->)|(data & Hp & Hdb & ->)]];
    cbn [snd].
  - rewrite (updateInvoice_invalid _ _ _ _ _ _ Hp). reflexivity.
  - rewrite (updateInvoice_rejected _ _ _ _ _ _ _ Hp Hdb). reflexivity.
  - rewrite (updateInvoice_stored _ _ _ _ _ _ Hp Hdb). cbn [snd invoices].
    unfold update_stmt. apply apply_update_twice.
Qed.

(** ** The row that [createInvoice] writes *)

Lemma split_T_head_T_free s : T_free (split_T_head s) = true.
Proof.
  induction s as [|c s IH]; simpl; [reflexivity|].
  destruct (Ascii.eqb c "T") eqn:Hc; simpl; [reflexivity|].
  rewrite Hc. exact IH.
Qed.

Lemma split_T_head_date d rest :
  T_free d = true -> split_T_head (d ++ String "T" rest) = d.
Proof.
  induction d as [|c d IH]; simpl; [reflexivity|].
  destruct (Ascii.eqb c "T"); simpl; [discriminate|].
  intros H. rewrite (IH H). reflexivity.
Qed.

(** X9: [split('T')[0]] as the action uses it: the result has no [T] and
    is a prefix of the string; a string without [T] is returned whole; and
    of a timestamp made of a date without [T], a [T] and anything after it,
    the result is the date. *)
Theorem split_T_head_spec s :
  T_free (split_T_head s) = true
  /\ String.prefix (split_T_head s) s = true
  /\ (T_free s = true -> split_T_head s = s)
  /\ (forall d rest, s = d ++ String "T" rest -> T_free d = true ->
      split_T_head s = d).
Proof.
  split; [apply split_T_head_T_free|]. split; [|split].
  - induction s as [|c s IH]; simpl; [reflexivity|].
    destruct (Ascii.eqb c "T"); simpl; [reflexivity|].
    destruct (ascii_dec c c); [exact IH | contradiction].
  - induction s as [|c s IH]; simpl; [reflexivity|].
    destruct (Ascii.eqb c "T"); simpl; [discriminate|].
    intros H. rewrite (IH H). reflexivity.
  - intros d rest -> Hd. apply split_T_head_date. exact Hd.
Qed.

(** X10: a create submission that passes validation and whose statement
    the store accepts adds exactly one row after the rows that were there:
    its id is the one the store gives, its customer id and status are the
    submitted strings, its amount is the validated amount times 100, and
    its date is the part of the clock's ISO timestamp before the [T]. *)
Theorem createInvoice_row prevState formData env w data d time :
  safeParse CreateInvoice (form_input formData) = SafeParseSuccess data ->
  db_fault env (insert_stmt env data) = None ->
  clock env = d ++ String "T" time ->
  T_free d = true ->
  invoices (snd (createInvoice prevState formData env w))
  = (invoices w
       ++ [{| Db.id := new_id env;
              Db.customer_id := customerId data;
              Db.amount := mul (amount data) (of_Z 100);
              Db.status := status data;
              Db.date := d |}])%list
  /\ FormData_get "customerId" formData = JString (customerId data)
  /\ FormData_get "status" formData = JString (status data).
Proof.
  intros Hp Hdb Hclock Hd. rewrite (createInvoice_stored _ _ _ _ _ Hp Hdb).
  cbn [snd invoices]. unfold insert_stmt. simpl Db.apply.
  rewrite Hclock, (split_T_head_date _ _ Hd). split; [reflexivity|].
  apply safeParse_passed in Hp as (Hc & _ & Hs).
  rewrite customerId_result_spec in Hc. rewrite status_result_spec in Hs.
  simpl in Hc, Hs.
  destruct (FormData_get "customerId" formData); try discriminate.
  injection Hc as ->. split; [reflexivity|].
  destruct (FormData_get "status" formData) as [| |s|]; try discriminate.
  destruct (bool_decide _); [|discriminate]. injection Hs as ->. reflexivity.
Qed.

Lemma createInvoice_row_witness :
  invoices (snd (createInvoice no_state
                   [("customerId", EString "c1"); ("amount", EString "12.34");
                    ("status", EString "pending")] quiet_env two_invoices))
  = (invoices two_invoices
       ++ [{| Db.id := "inv_new"; Db.customer_id := "c1"; Db.amount := of_Z 1234;
              Db.status := "pending"; Db.date := "2026-11-02" |}])%list.
Proof.
  destruct (createInvoice_row no_state
              [("customerId", EString "c1"); ("amount", EString "12.34");
               ("status", EString "pending")] quiet_env two_invoices
              {| customerId := "c1"; amount := StringToNumber "12.34";
                 status := "pending" |} "2026-11-02" "10:00:00.000Z")
    as [Hrow _]; [vm_compute; reflexivity | reflexivity | reflexivity | reflexivity |].
  rewrite Hrow. vm_compute. reflexivity.
Defined.

(** X11: an invoice that was just created can be updated under the id the
    store gave it: when that id is not in the table before, and both
    submissions pass validation and are accepted by the store, the table
    after [createInvoice] and then [updateInvoice] with that id is the old
    table followed by one row that has the updated customer id, amount and
    status and the date of its creation. *)
Theorem create_then_update prevState1 prevState2 fd1 fd2 env w data1 data2 :
  safeParse CreateInvoice (form_input fd1) = SafeParseSuccess data1 ->
  db_fault env (insert_stmt env data1) = None ->
  safeParse UpdateInvoice (form_input fd2) = SafeParseSuccess data2 ->
  db_fault env (update_stmt (new_id env) data2) = None ->
  (forall r, r ∈ invoices w -> Db.id r <> new_id env) ->
  invoices (snd (updateInvoice (new_id env) prevState2 fd2 env
                   (snd (createInvoice prevState1 fd1 env w))))
  = (invoices w
       ++ [{| Db.id := new_id env;
              Db.customer_id := customerId data2;
              Db.amount := mul (amount data2) (of_Z 100);
              Db.status := status data2;
              Db.date := split_T_head (clock env) |}])%list.
Proof.
  intros Hp1 Hdb1 Hp2 Hdb2 Hfresh.
  rewrite (updateInvoice_stored _ _ _ _ _ _ Hp2 Hdb2).
  rewrite (createInvoice_stored _ _ _ _ _ Hp1 Hdb1).
  cbn [snd invoices]. unfold update_stmt, insert_stmt.
  pose proof (apply_update_no_match (new_id env) (customerId data2)
                (mul (amount data2) (of_Z 100)) (status data2) (new_id env)
                (invoices w) Hfresh) as Hold.
  simpl in Hold. simpl. rewrite map_app, Hold. simpl.
  rewrite String.eqb_refl. reflexivity.
Qed.

Lemma create_then_update_witness :
  let fd1 := [("customerId", EString "c1"); ("amount", EString "7");
              ("status", EString "pending")] in
  let fd2 := [("customerId", EString "c3"); ("amount", EString "12.34");
              ("status", EString "paid")] in
  invoices (snd (updateInvoice "inv_new" no_state fd2 quiet_env
                   (snd (createInvoice no_state fd1 quiet_env two_invoices))))
  = (invoices two_invoices
       ++ [{| Db.id := "inv_new"; Db.customer_id := "c3"; Db.amount := of_Z 1234;
              Db.status := "paid"; Db.date := "2026-11-02" |}])%list.
Proof.
  intros fd1 fd2.
  refine (eq_trans
            (create_then_update no_state no_state fd1 fd2 quiet_env two_invoices
               {| customerId := "c1"; amount := StringToNumber "7";
                  status := "pending" |}
               {| customerId := "c3"; amount := StringToNumber "12.34";
                  status := "paid" |} _ _ _ _ _) _).
  - vm_compute. reflexivity.
  - reflexivity.
  - vm_compute. reflexivity.
  - reflexivity.
  - intros r Hin. simpl in Hin.
    apply elem_of_cons in Hin as [->|Hin]; [discriminate|].
    apply list_elem_of_singleton in Hin as ->. discriminate.
  - vm_compute. reflexivity.
Defined.

(** ** The authenticator *)

(** X12: whatever [signIn] does, [authenticate] leaves the world as
    [signIn] left it, never throws an authentication error, returns no
    string other than its two messages, and returns [undefined] exactly
    when [signIn] returned. *)
Theorem authenticate_outcome signIn prevState formData env w :
  let r := authenticate signIn prevState formData env w in
  let s := signIn "credentials" formData env w in
  snd r = snd s
  /\ (forall type, fst r <> Throw (AuthError type))
  /\ (forall msg, fst r = Ok (Some msg) ->
      msg = "Invalid credentials." \/ msg = "Someting went wrong")
  /\ (fst r = Ok None <-> exists u, fst s = Ok u).
Proof.
  intros r s. subst r s. rewrite authenticate_run.
  destruct (signIn "credentials" formData env w) as [[u|e] w']; simpl.
  - repeat split; try discriminate; eauto.
  - destruct e; simpl; repeat split; try discriminate;
      try (intros [u Hu]; discriminate).
    intros msg [= <-].
    destruct (String.eqb type "CredentialsSignin"); auto.
Qed.

Lemma authenticate_invalid_credentials_witness :
  authenticate (fun _ _ => throw (AuthError "CredentialsSignin")) None
    [("email", EString "user@nextmail.com"); ("password", EString "wrong")]
    quiet_env empty_world
  = (Ok (Some "Invalid credentials."), empty_world).
Proof.
  apply (authenticate_invalid_credentials
           (fun _ _ => throw (AuthError "CredentialsSignin"))).
  reflexivity.
Defined.

Lemma authenticate_rethrows_witness :
  authenticate (fun _ _ => throw (NextRedirect "/dashboard")) None
    [("email", EString "user@nextmail.com"); ("password", EString "123456")]
    quiet_env empty_world
  = (Throw (NextRedirect "/dashboard"), empty_world).
Proof.
  apply (authenticate_rethrows (fun _ _ => throw (NextRedirect "/dashboard")));
    [reflexivity | discriminate].
Defined.

(** ** What [updateInvoice] reads *)

(** X15: two update submissions for the same identifier whose forms give
    the same customerId, amount and status have the same outcome, in the
    same environment and world, whatever other fields the forms carry and
    whatever the previous state was. *)
Theorem updateInvoice_ignores_other_fields id prevState1 prevState2 fd1 fd2 env w :
  FormData_get "customerId" fd1 = FormData_get "customerId" fd2 ->
  FormData_get "amount" fd1 = FormData_get "amount" fd2 ->
  FormData_get "status" fd1 = FormData_get "status" fd2 ->
  updateInvoice id prevState1 fd1 env w = updateInvoice id prevState2 fd2 env w.
Proof.
  intros Hc Ha Hs. unfold updateInvoice. rewrite Hc, Ha, Hs. reflexivity.
Qed.

Lemma updateInvoice_ignores_other_fields_witness :
  updateInvoice "inv_1" no_state
    [("customerId", EString "c1"); ("amount", EString "12.34");
     ("status", EString "pending")] quiet_env two_invoices
  = updateInvoice "inv_1" {| errors := None; message := Some "previous" |}
      [("id", EString "inv_2"); ("customerId", EString "c1");
       ("date", EString "1999-12-31"); ("amount", EString "12.34");
       ("status", EString "pending")] quiet_env two_invoices.
Proof.
  apply updateInvoice_ignores_other_fields; reflexivity.
Defined.


(** ** Whole amounts *)

(** The number of binary digits, and shifting to the right by iteration. *)
Lemma digits2_log2 p : Zpos (digits2_pos p) = Z.log2 (Zpos p) + 1.
Proof.
  assert (Hs : forall q, digits2_pos q = Pos.size q)
    by (induction q as [q IH|q IH|]; simpl; congruence).
  destruct p as [q|q|]; simpl; rewrite ?Hs; lia.
Qed.

Lemma iter_pos_nat {A} (f : A -> A) p x :
  SpecFloat.iter_pos f p x = Nat.iter (Pos.to_nat p) f x.
Proof.
  revert x. induction p as [p IH|p IH|]; intros x; cbn [SpecFloat.iter_pos].
  - rewrite !IH, Pos2Nat.inj_xI, Nat.iter_succ_r.
    replace (2 * Pos.to_nat p)%nat with (Pos.to_nat p + Pos.to_nat p)%nat by lia.
    rewrite Nat.iter_add. reflexivity.
  - rewrite !IH, Pos2Nat.inj_xO.
    replace (2 * Pos.to_nat p)%nat with (Pos.to_nat p + Pos.to_nat p)%nat by lia.
    rewrite Nat.iter_add. reflexivity.
  - reflexivity.
Qed.

Lemma shr_1_exact k M :
  0 < M ->
  Nat.iter k shr_1 {| shr_m := M * 2 ^ Z.of_nat k; shr_r := false; shr_s := false |}
  = {| shr_m := M; shr_r := false; shr_s := false |}.
Proof.
  revert M. induction k as [|k IH]; intros M HM.
  - simpl. f_equal. lia.
  - rewrite Nat2Z.inj_succ, Z.pow_succ_r by lia.
    replace (M * (2 * 2 ^ Z.of_nat k)) with ((2 * M) * 2 ^ Z.of_nat k) by ring.
    simpl. rewrite IH by lia.
    destruct M as [|p|p]; try lia. reflexivity.
Qed.

(** Rounding is exact on a mantissa [N * 2^j] of at least 53 bits whose
    odd part [N] has at most 53. *)
Lemma binary_round_aux_exact N j e :
  0 < N -> N < 2 ^ 53 ->
  let d := Z.log2 N + 1 in
  53 - d <= j ->
  -1074 <= d - 53 + (j + e) <= 971 ->
  binary_round_aux prec emax false (N * 2 ^ j) e loc_Exact
  = S754_finite false (Z.to_pos (N * 2 ^ (53 - d))) (d - 53 + (j + e)).
Proof.
  intros HN Hlt d Hj He.
  assert (Hd : 1 <= d <= 53).
  { unfold d. pose proof (Z.log2_nonneg N).
    assert (Z.log2 N < 53) by (apply Z.log2_lt_pow2; lia). lia. }
  assert (Hdig : forall k, 0 <= k -> Zdigits2 (N * 2 ^ k) = d + k).
  { intros k Hk. assert (0 < N * 2 ^ k) by (apply Z.mul_pos_pos; [lia|apply Z.pow_pos_nonneg; lia]).
    destruct (N * 2 ^ k) as [|p|p] eqn:Hp; try lia.
    simpl. rewrite digits2_log2, <- Hp, Z.log2_mul_pow2 by lia. unfold d. lia. }
  unfold binary_round_aux.
  assert (H1 : shr_fexp prec emax (N * 2 ^ j) e loc_Exact
               = ({| shr_m := N * 2 ^ (53 - d); shr_r := false; shr_s := false |},
                  d - 53 + (j + e))).
  { unfold shr_fexp. rewrite Hdig by lia. unfold fexp, emin, prec, emax.
    rewrite Z.max_l by lia. unfold shr. simpl shr_record_of_loc.
    destruct (d + j + e - 53 - e) as [|n|n] eqn:Hn; try lia.
    - replace j with (53 - d) by lia. f_equal. lia.
    - rewrite iter_pos_nat.
      replace (N * 2 ^ j) with ((N * 2 ^ (53 - d)) * 2 ^ Z.of_nat (Pos.to_nat n)).
      + rewrite shr_1_exact; [f_equal; lia|].
        apply Z.mul_pos_pos; [lia|apply Z.pow_pos_nonneg; lia].
      + rewrite positive_nat_Z, <- Z.mul_assoc, <- Z.pow_add_r by lia.
        f_equal. f_equal. lia. }
  rewrite H1. simpl shr_m. simpl loc_of_shr_record. simpl round_nearest_even.
  assert (H2 : shr_fexp prec emax (N * 2 ^ (53 - d)) (d - 53 + (j + e)) loc_Exact
               = ({| shr_m := N * 2 ^ (53 - d); shr_r := false; shr_s := false |},
                  d - 53 + (j + e))).
  { unfold shr_fexp. rewrite Hdig by lia. unfold fexp, emin, prec, emax.
    rewrite Z.max_l by lia. unfold shr. simpl shr_record_of_loc.
    replace (d + (53 - d) + (d - 53 + (j + e)) - 53 - (d - 53 + (j + e))) with 0 by lia.
    reflexivity. }
  rewrite H2. simpl shr_m.
  assert (0 < N * 2 ^ (53 - d)) by (apply Z.mul_pos_pos; [lia|apply Z.pow_pos_nonneg; lia]).
  destruct (N * 2 ^ (53 - d)) as [|p|p] eqn:Hp; try lia.
  unfold prec, emax. destruct (Z.leb_spec (d - 53 + (j + e)) (1024 - 53)); [reflexivity|lia].
Qed.

Lemma of_Z_canonical N :
  0 < N -> N < 2 ^ 53 ->
  of_Z N = S754_finite false (Z.to_pos (N * 2 ^ (53 - (Z.log2 N + 1))))
                       (Z.log2 N + 1 - 53).
Proof.
  intros HN Hlt. set (d := Z.log2 N + 1).
  assert (Hd : 1 <= d <= 53).
  { unfold d. pose proof (Z.log2_nonneg N).
    assert (Z.log2 N < 53) by (apply Z.log2_lt_pow2; lia). lia. }
  destruct N as [|p|p]; try lia.
  unfold of_Z, binary_normalize, binary_round, shl_align.
  rewrite digits2_log2. fold d. unfold fexp, emin, prec, emax.
  rewrite Z.max_l by lia.
  destruct (d + 0 - 53 - 0) as [|q|q] eqn:Hq; try lia.
  - pose proof (binary_round_aux_exact (Zpos p) 0 0 HN Hlt) as H.
    cbv zeta in H. fold d in H. rewrite Z.mul_1_r in H. unfold prec, emax in H.
    rewrite H by lia. f_equal. lia.
  - pose proof (binary_round_aux_exact (Zpos p) (53 - d) (d - 53) HN Hlt) as H.
    cbv zeta in H. fold d in H. unfold prec, emax in H.
    change (Pos.iter xO p q) with (shift_pos q p).
    rewrite shift_pos_correct. change (Z.pow_pos 2 q) with (2 ^ Zpos q).
    replace (Zpos q) with (53 - d) by lia. rewrite Z.mul_comm.
    replace (d + 0 - 53) with (d - 53) by lia.
    rewrite H by lia. f_equal. lia.
Qed.

Lemma mul_of_Z a b :
  0 < a -> 0 < b -> a * b < 2 ^ 53 -> mul (of_Z a) (of_Z b) = of_Z (a * b).
Proof.
  intros Ha Hb Hab.
  assert (Ha' : a < 2 ^ 53) by nia. assert (Hb' : b < 2 ^ 53) by nia.
  rewrite (of_Z_canonical a), (of_Z_canonical b), (of_Z_canonical (a * b)) by lia.
  set (da := Z.log2 a + 1). set (db := Z.log2 b + 1). set (d := Z.log2 (a * b) + 1).
  assert (Hda : 1 <= da <= 53).
  { unfold da. pose proof (Z.log2_nonneg a).
    assert (Z.log2 a < 53) by (apply Z.log2_lt_pow2; lia). lia. }
  assert (Hdb : 1 <= db <= 53).
  { unfold db. pose proof (Z.log2_nonneg b).
    assert (Z.log2 b < 53) by (apply Z.log2_lt_pow2; lia). lia. }
  assert (Hd : da + db - 1 <= d <= 53).
  { unfold d, da, db. pose proof (Z.log2_mul_below a b Ha Hb).
    assert (Z.log2 (a * b) < 53) by (apply Z.log2_lt_pow2; lia). lia. }
  unfold mul, SFmul. simpl xorb.
  assert (Hpa : 0 < a * 2 ^ (53 - da)) by (apply Z.mul_pos_pos; [lia|apply Z.pow_pos_nonneg; lia]).
  assert (Hpb : 0 < b * 2 ^ (53 - db)) by (apply Z.mul_pos_pos; [lia|apply Z.pow_pos_nonneg; lia]).
  rewrite Pos2Z.inj_mul, !Z2Pos.id by lia.
  replace (a * 2 ^ (53 - da) * (b * 2 ^ (53 - db)))
    with ((a * b) * 2 ^ (106 - da - db)).
  - pose proof (binary_round_aux_exact (a * b) (106 - da - db) (da - 53 + (db - 53))) as H.
    cbv zeta in H. fold d in H. rewrite H by lia. f_equal. lia.
  - replace (106 - da - db) with ((53 - da) + (53 - db)) by lia.
    rewrite Z.pow_add_r by lia. ring.
Qed.

Ltac decide_bytes :=
  repeat match goal with
         | |- context [Z.eqb ?x ?y] => destruct (Z.eqb_spec x y); try lia
         | |- context [Z.leb ?x ?y] => destruct (Z.leb_spec x y); try lia
         | |- context [Z.ltb ?x ?y] => destruct (Z.ltb_spec x y); try lia
         end.

Lemma is_digit_range c : is_digit c = true -> 48 <= byte c <= 57.
Proof. unfold is_digit. intros H. apply andb_true_iff in H as [H1 H2]. lia. Qed.

Lemma digit_val_digit c : is_digit c = true -> digit_val c = Some (byte c - 48).
Proof.
  intros H. apply is_digit_range in H. unfold digit_val.
  decide_bytes. reflexivity.
Qed.

Lemma read_digits_all l acc n :
  forallb is_digit l = true ->
  read_digits 10 l acc n = (digits_value l acc, n + Z.of_nat (length l), []).
Proof.
  revert acc n. induction l as [|c l IH]; intros acc n H; simpl.
  - rewrite Z.add_0_r. reflexivity.
  - apply andb_true_iff in H as [Hc Hl].
    rewrite (digit_val_digit c Hc). apply is_digit_range in Hc.
    destruct (Z.ltb_spec (byte c - 48) 10); [|lia].
    rewrite IH by exact Hl.
    replace (n + Z.of_nat (S (length l))) with (n + 1 + Z.of_nat (length l)) by lia.
    reflexivity.
Qed.

Lemma skip_ws_digit c l : is_digit c = true -> skip_ws (c :: l) = c :: l.
Proof.
  intros H. apply is_digit_range in H. cbn [skip_ws].
  unfold ws1, ws2, ws3. decide_bytes. simpl.
  destruct l as [|b [|c' l']]; reflexivity.
Qed.

Lemma digits_value_nonneg l acc :
  forallb is_digit l = true -> 0 <= acc -> 0 <= digits_value l acc.
Proof.
  revert acc. induction l as [|c l IH]; intros acc H Hacc; simpl; [exact Hacc|].
  apply andb_true_iff in H as [Hc Hl]. apply is_digit_range in Hc.
  apply IH; [exact Hl | lia].
Qed.

Lemma StringToNumber_whole s n :
  whole_number s = Some n -> StringToNumber s = of_Z n.
Proof.
  unfold whole_number, StringToNumber.
  destruct (list_ascii_of_string s) as [|c l]; [discriminate|].
  destruct (forallb is_digit (c :: l)) eqn:Hall; [|discriminate].
  intros [= <-].
  pose proof Hall as Hall'. simpl in Hall'. apply andb_true_iff in Hall' as [Hc Hl].
  rewrite (skip_ws_digit c l Hc).
  assert (Hlit : read_literal (c :: l) = read_unsigned_decimal false (c :: l)).
  { unfold read_literal. destruct l as [|x r]; [reflexivity|].
    simpl in Hl. apply andb_true_iff in Hl as [Hx _].
    apply is_digit_range in Hx. apply is_digit_range in Hc.
    unfold radix_of. decide_bytes; reflexivity. }
  rewrite Hlit. unfold read_unsigned_decimal.
  assert (Hinf : strip_prefix (list_ascii_of_string "Infinity") (c :: l) = None).
  { change (strip_prefix ("I"%char :: list_ascii_of_string "nfinity") (c :: l) = None).
    cbn [strip_prefix].
    destruct (Ascii.eqb_spec "I"%char c) as [<-|_]; [|reflexivity].
    apply is_digit_range in Hc. change (byte "I") with 73 in Hc. lia. }
  rewrite Hinf, (read_digits_all _ 0 0 Hall).
  assert (Hlen : (0 + Z.of_nat (length (c :: l)) + 0 =? 0) = false)
    by (apply Z.eqb_neq; simpl length; lia).
  rewrite Hlen. simpl read_exponent. cbv iota beta.
  unfold all_ws. simpl skip_ws. unfold of_decimal.
  change (digits_value l (0 * 10 + (byte c - 48))) with (digits_value (c :: l) 0).
  destruct (Z.eqb_spec (digits_value (c :: l) 0) 0) as [->|Hne]; [reflexivity|].
  change (0 <=? 0 - 0) with true. change (10 ^ (0 - 0)) with 1. cbv iota.
  unfold cond_Zopp. rewrite Z.mul_1_r. reflexivity.
Qed.

(** X16: a whole amount is stored exactly.  When the amount field is a
    string of decimal digits that denotes the integer [n], with 100 n below
    2^53, and the submission passes validation, then [n] is positive, the
    validated amount is the number [n], and the statement that
    [createInvoice] or [updateInvoice] sends carries exactly the number
    100 n. *)
Theorem whole_amount_exact id prevState formData env w data s n :
  safeParse CreateInvoice (form_input formData) = SafeParseSuccess data ->
  FormData_get "amount" formData = JString s ->
  whole_number s = Some n ->
  100 * n < 2 ^ 53 ->
  0 < n
  /\ amount data = of_Z n
  /\ mul (amount data) (of_Z 100) = of_Z (100 * n)
  /\ queries (snd (createInvoice prevState formData env w))
     = (queries w ++ [Db.Insert (customerId data) (of_Z (100 * n)) (status data)
                                (split_T_head (clock env))])%list
  /\ queries (snd (updateInvoice id prevState formData env w))
     = (queries w ++ [Db.Update (customerId data) (of_Z (100 * n)) (status data)
                                id])%list.
Proof.
  intros Hp Hs Hn Hlt.
  destruct (validated_amount _ _ Hp) as [Ha Hpos]. simpl in_amount in Ha.
  rewrite Hs in Ha. simpl in Ha. rewrite (StringToNumber_whole s n Hn) in Ha.
  assert (H0 : 0 < n).
  { assert (0 <= n).
    { unfold whole_number in Hn. destruct (list_ascii_of_string s) as [|c l];
        [discriminate|].
      destruct (forallb is_digit (c :: l)) eqn:Hall; [|discriminate].
      injection Hn as <-. apply (digits_value_nonneg (c :: l) 0 Hall). lia. }
    destruct (Z.eq_dec n 0) as [->|]; [|lia].
    rewrite Ha in Hpos. vm_compute in Hpos. discriminate. }
  assert (Hc : mul (amount data) (of_Z 100) = of_Z (100 * n)).
  { rewrite Ha, mul_of_Z by lia. f_equal. lia. }
  split; [exact H0|]. split; [exact Ha|]. split; [exact Hc|]. split.
  - destruct (db_fault env (insert_stmt env data)) as [e|] eqn:Hdb.
    + rewrite (createInvoice_rejected _ _ _ _ _ _ Hp Hdb). simpl.
      unfold insert_stmt. rewrite Hc. reflexivity.
    + rewrite (createInvoice_stored _ _ _ _ _ Hp Hdb). simpl.
      unfold insert_stmt. rewrite Hc. reflexivity.
  - destruct (db_fault env (update_stmt id data)) as [e|] eqn:Hdb.
    + rewrite (updateInvoice_rejected _ _ _ _ _ _ _ Hp Hdb). simpl.
      unfold update_stmt. rewrite Hc. reflexivity.
    + rewrite (updateInvoice_stored _ _ _ _ _ _ Hp Hdb). simpl.
      unfold update_stmt. rewrite Hc. reflexivity.
Qed.

Lemma whole_amount_exact_witness :
  queries (snd (createInvoice no_state
                  [("customerId", EString "c1"); ("amount", EString "90071992547409");
                   ("status", EString "paid")] quiet_env empty_world))
  = [Db.Insert "c1" (of_Z 9007199254740900) "paid" "2026-11-02"].
Proof.
  refine (proj1 (proj2 (proj2 (proj2
            (whole_amount_exact "inv_1" no_state
               [("customerId", EString "c1"); ("amount", EString "90071992547409");
                ("status", EString "paid")] quiet_env empty_world
               {| customerId := "c1"; amount := StringToNumber "90071992547409";
                  status := "paid" |} "90071992547409" 90071992547409 _ _ _ _))))).
  - vm_compute. reflexivity.
  - reflexivity.
  - vm_compute. reflexivity.
  - vm_compute. reflexivity.
Defined.

(** ** A blank amount *)

(** X17: an amount field that is empty or holds only white space is
    coerced to 0, not to NaN: both actions reject it with the message
    "Amount must be greater than 0". *)
Theorem blank_amount_rejected id prevState formData env w s :
  FormData_get "amount" formData = JString s ->
  all_ws (list_ascii_of_string s) = true ->
  Number (JString s) = pos_zero
  /\ exists fe : gmap string (list string),
      createInvoice prevState formData env w
      = (Ok {| errors := Some fe;
               message := Some "Missing Fields. Failed to Create Invoice." |}, w)
      /\ updateInvoice id prevState formData env w
         = (Ok {| errors := Some fe;
                  message := Some "Missing Fields. Failed to Update Invoice." |}, w)
      /\ fe !! "amount" = Some ["Amount must be greater than 0"].
Proof.
  intros Hs Hws.
  assert (Hz : Number (JString s) = pos_zero).
  { simpl. unfold StringToNumber. unfold all_ws in Hws.
    destruct (skip_ws (list_ascii_of_string s)); [reflexivity | discriminate]. }
  split; [exact Hz|].
  assert (Ha : amount_result (form_input formData)
               = DIRTY pos_zero
                   [mkIssue too_small ["amount"] "Amount must be greater than 0"]).
  { rewrite amount_result_spec. cbv zeta. simpl in_amount. rewrite Hs, Hz.
    reflexivity. }
  destruct (invalid_submission id prevState formData env w)
    as (fe & Hc & Hu & _ & He & _).
  { rewrite Ha. simpl. rewrite orb_true_r. reflexivity. }
  exists fe. split; [exact Hc|]. split; [exact Hu|].
  rewrite Ha in He. exact (proj2 He).
Qed.

Lemma blank_amount_rejected_witness :
  exists fe : gmap string (list string),
    createInvoice no_state
      [("customerId", EString "c1"); ("amount", EString "   ");
       ("status", EString "paid")] quiet_env empty_world
    = (Ok {| errors := Some fe;
             message := Some "Missing Fields. Failed to Create Invoice." |},
       empty_world)
    /\ fe !! "amount" = Some ["Amount must be greater than 0"].
Proof.
  destruct (blank_amount_rejected "inv_1" no_state
              [("customerId", EString "c1"); ("amount", EString "   ");
               ("status", EString "paid")] quiet_env empty_world "   ")
    as (_ & fe & Hc & _ & Ha); [reflexivity | reflexivity |].
  exists fe. split; [exact Hc | exact Ha].
Defined.
